(** * NestOS system service and ISO builder

    A shallow embedding of the request handlers of
    [packages/system-service/src/routes] (system information, performance
    test, log retrieval, Docker containers, images and statistics) and of
    the ISO build pipeline, followed by the properties the design document
    states about them.

    JavaScript numbers are IEEE 754 binary64 values.  They are modelled by
    [spec_float] of the standard library with precision 53 and maximal
    exponent 1024, so that rounding, signed zeros, infinities and NaN are
    the ones the program computes with. *)

From Stdlib Require Import ZArith QArith Qround Qpower Qabs.
From Stdlib Require Import String Ascii List Bool Lia DecimalString DecimalPos DecimalZ.
From Stdlib Require Import Floats.SpecFloat.
From stdpp Require Import gmap strings.
Import ListNotations.

Local Open Scope Z_scope.
Local Open Scope string_scope.

(** ** JavaScript numbers *)

Module JSNumber.

Definition prec : Z := 53.
Definition emax : Z := 1024.

Definition number : Type := spec_float.

(** A numeric literal holding the integer [z], rounded to binary64. *)
Definition ofZ (z : Z) : number := binary_normalize prec emax z 0 false.

Definition add : number -> number -> number := SFadd prec emax.
Definition sub : number -> number -> number := SFsub prec emax.
Definition mul : number -> number -> number := SFmul prec emax.
Definition div : number -> number -> number := SFdiv prec emax.

(** [x >= y]: false as soon as one side is NaN. *)
Definition geb (x y : number) : bool := SFleb y x.


Definition isFinite (x : number) : bool :=
  match x with
  | S754_zero _ | S754_finite _ _ _ => true
  | S754_infinity _ | S754_nan => false
  end.

Definition isZero (x : number) : bool :=
  match x with
  | S754_zero _ => true
  | _ => false
  end.

(** Zero or a positive finite value: what a count can be. *)
Definition nonNegative (x : number) : bool :=
  match x with
  | S754_zero _ | S754_finite false _ _ => true
  | _ => false
  end.

(** ToBoolean on a number: zeros and NaN are falsy. *)
Definition truthy (x : number) : bool :=
  match x with
  | S754_zero _ | S754_nan => false
  | S754_infinity _ | S754_finite _ _ _ => true
  end.

(** The representations that are binary64 values: a canonical mantissa and
    an exponent in range.  Every number the program handles has one. *)
Definition valid (x : number) : bool := valid_binary prec emax x.

(** The real number a finite value denotes (0 for the others). *)
Definition value (x : number) : Q :=
  match x with
  | S754_finite s m e =>
      let a := (inject_Z (Zpos m) * 2 ^ e)%Q in
      if s then (- a)%Q else a
  | _ => 0%Q
  end.

(** The decimal numeral of a natural number, and its two-digit form. *)
Definition decimal (n : Z) : string := NilZero.string_of_uint (N.to_uint (Z.to_N n)).

Definition twoDigits (n : Z) : string :=
  if (n <? 10)%Z then "0" ++ decimal n else decimal n.

Section ToFixed.

(** [Number::toString] on a finite magnitude of 10^21 or more prints the
    shortest digit string that reads back as the same binary64 value, in
    exponent notation.  Which digits those are is left to the engine; the
    development takes the function as given. *)
Variable exponentNotation : number -> string.

(** [Number.prototype.toFixed(2)].  Non-finite values print their name.
    Otherwise the sign is split off, and below 10^21 the integer [n] nearest
    to 100 times the magnitude is taken (the larger one on a tie) and
    printed with a point before its last two digits. *)
Definition toFixed2 (x : number) : string :=
  match x with
  | S754_nan => "NaN"
  | S754_infinity false => "Infinity"
  | S754_infinity true => "-Infinity"
  | _ =>
      let v := value x in
      let s := if Qle_bool 0 v then "" else "-" in
      let a := Qabs v in
      if Qle_bool (10 ^ 21) a then s ++ exponentNotation (SFabs x)
      else
        let n := Qfloor (a * 100 + (1 # 2)) in
        s ++ decimal (n / 100) ++ "." ++ twoDigits (n mod 100)
  end.

End ToFixed.

End JSNumber.

(** ** Docker statistics ([routes/docker.ts], the statistics plugin) *)

Module DockerStats.
Import JSNumber.

Record CpuUsage := { total_usage : number }.

Record CpuStats := {
  cpu_usage : CpuUsage;
  system_cpu_usage : number;
  online_cpus : number
}.

Record MemoryStats := { usage : number; limit : number }.

Record NetworkStats := { rx_bytes : number; tx_bytes : number }.

Record BlockIOStats := { op : string; value : number }.

Record BlkioStats := { io_service_bytes_recursive : option (list BlockIOStats) }.

(** One answer of [container.stats({ stream: false })].  The object
    [networks] is kept as the list of its entries in enumeration order, the
    order [Object.values] follows; [None] stands for an absent member. *)
Record Stats := {
  cpu_stats : CpuStats;
  precpu_stats : CpuStats;
  memory_stats : MemoryStats;
  networks : option (list (string * NetworkStats));
  blkio_stats : option BlkioStats
}.

Definition cpuDelta (stats : Stats) : number :=
  sub (total_usage (cpu_usage (cpu_stats stats)))
      (total_usage (cpu_usage (precpu_stats stats))).

Definition systemDelta (stats : Stats) : number :=
  sub (system_cpu_usage (cpu_stats stats)) (system_cpu_usage (precpu_stats stats)).

Definition calculateCPUPercentage (stats : Stats) : number :=
  let cpuCount := online_cpus (cpu_stats stats) in
  mul (mul (div (cpuDelta stats) (systemDelta stats)) cpuCount) (ofZ 100).

Definition units : list string := ["B"; "KB"; "MB"; "GB"; "TB"].

(** The [while] loop of [formatBytes].  Every turn increments [unitIndex],
    which the condition bounds by [units.length - 1]; [fuel] counts the
    turns that remain available. *)
Fixpoint formatBytes_loop (fuel : nat) (size : number) (unitIndex : nat) : number * nat :=
  match fuel with
  | O => (size, unitIndex)
  | S fuel' =>
      if geb size (ofZ 1024) && (unitIndex <? length units - 1)%nat
      then formatBytes_loop fuel' (div size (ofZ 1024)) (S unitIndex)
      else (size, unitIndex)
  end.

Definition formatBytes_scale (bytes : number) : number * nat :=
  formatBytes_loop (length units) bytes 0.

(** The count [bytes] expressed in the unit of index [k] of the ladder. *)
Definition scaled (bytes : number) (k : nat) : Q :=
  (JSNumber.value bytes / 1024 ^ Z.of_nat k)%Q.

(** [k] divisions by 1024, as the loop performs them. *)
Definition divided (bytes : number) (k : nat) : number :=
  Nat.iter k (fun size => div size (ofZ 1024)) bytes.

(** The reading "the largest unit whose scaled value is below 1024, the top
    unit excepted", for the unit the loop stops at. *)
Definition choosesLargestUnit (bytes : number) : Prop :=
  let '(size, k) := formatBytes_scale bytes in
  (JSNumber.value size == scaled bytes k)%Q
  /\ ((scaled bytes k < 1024)%Q \/ k = 4%nat)
  /\ forall j : nat, (j <= 4)%nat -> (scaled bytes j < 1024)%Q -> (j <= k)%nat.

(** What the loop started at [size] and [idx] returns: it has divided [d]
    times, each time because the value was at least 1024, and stops below
    1024 or at the top unit. *)
Definition loop_post (size : number) (idx : nat) (r : number * nat) : Prop :=
  exists d : nat,
    r = (divided size d, (idx + d)%nat)
    /\ (idx + d <= 4)%nat
    /\ (JSNumber.value (divided size d) == scaled size d)%Q
    /\ (forall j, (j < d)%nat -> (1024 <= scaled size j)%Q)
    /\ ((idx + d < 4)%nat -> (scaled size d < 1024)%Q).

(** The sums and the entries [formatNetworkIO] and [formatBlockIO] bind to
    [rx], [tx], [read] and [write]. *)
Definition networkValues (stats : Stats) : list NetworkStats :=
  match networks stats with
  | Some o => map snd o
  | None => []
  end.

Definition networkRx (stats : Stats) : number :=
  fold_left (fun acc net => add acc (rx_bytes net)) (networkValues stats) (ofZ 0).

Definition networkTx (stats : Stats) : number :=
  fold_left (fun acc net => add acc (tx_bytes net)) (networkValues stats) (ofZ 0).

(** [stats.blkio_stats?.io_service_bytes_recursive?.find(s => s.op === o)?.value || 0] *)
Definition blockValue (o : string) (stats : Stats) : number :=
  match blkio_stats stats with
  | None => ofZ 0
  | Some b =>
      match io_service_bytes_recursive b with
      | None => ofZ 0
      | Some l =>
          match find (fun s => String.eqb (op s) o) l with
          | None => ofZ 0
          | Some s => if truthy (value s) then value s else ofZ 0
          end
      end
  end.

Definition blockRead (stats : Stats) : number := blockValue "Read" stats.
Definition blockWrite (stats : Stats) : number := blockValue "Write" stats.

(** The design document's figure: the counters of operation [o] added up
    over all devices of the sample. *)
Definition blockEntries (stats : Stats) : list BlockIOStats :=
  match blkio_stats stats with
  | Some {| io_service_bytes_recursive := Some l |} => l
  | _ => []
  end.

Definition blockSum (o : string) (stats : Stats) : number :=
  fold_left (fun acc s => add acc (value s))
    (filter (fun s => String.eqb (op s) o) (blockEntries stats)) (ofZ 0).

Record ContainerInfo := { Id : string; Names : list string }.

Record StatsEntry := {
  name : string;
  cpu : string;
  memory : string;
  network : string;
  disk : string
}.

(** [String.prototype.replace] with a string pattern: the first occurrence
    only. *)
Fixpoint replaceFirst (c : ascii) (s : string) : string :=
  match s with
  | EmptyString => EmptyString
  | String a s' => if Ascii.eqb a c then s' else String a (replaceFirst c s')
  end.

(** The Docker client as the handler sees it: each call either rejects or
    resolves. *)
Record DockerClient (Error : Type) := {
  listContainers : Error + list ContainerInfo;
  containerStats : string -> Error + Stats
}.
Arguments listContainers {Error}.
Arguments containerStats {Error}.

Section Formatting.

Variable exponentNotation : number -> string.

Definition formatBytes (bytes : number) : string :=
  let '(size, unitIndex) := formatBytes_scale bytes in
  toFixed2 exponentNotation size ++ nth unitIndex units "undefined".

Definition formatMemoryUsage (stats : Stats) : string :=
  let used := usage (memory_stats stats) in
  let limit := limit (memory_stats stats) in
  let percent := toFixed2 exponentNotation (mul (div used limit) (ofZ 100)) in
  formatBytes used ++ " / " ++ formatBytes limit ++ " (" ++ percent ++ "%)".

Definition formatNetworkIO (stats : Stats) : string :=
  "↓" ++ formatBytes (networkRx stats) ++ " / ↑" ++ formatBytes (networkTx stats).

Definition formatBlockIO (stats : Stats) : string :=
  "↓" ++ formatBytes (blockRead stats) ++ " / ↑" ++ formatBytes (blockWrite stats).

(** The body of the [containers.map] callback once the statistics of the
    container have arrived.  [Names[0]] of an empty list is [undefined] and
    the call of [replace] on it throws. *)
Definition statsEntry (containerInfo : ContainerInfo) (stats : Stats) : option StatsEntry :=
  match Names containerInfo with
  | [] => None
  | n :: _ =>
      Some {| name := replaceFirst "/" n;
              cpu := toFixed2 exponentNotation (calculateCPUPercentage stats) ++ "%";
              memory := formatMemoryUsage stats;
              network := formatNetworkIO stats;
              disk := formatBlockIO stats |}
  end.

Fixpoint statsEntries {Error : Type} (docker : DockerClient Error)
    (containers : list ContainerInfo) : option (list StatsEntry) :=
  match containers with
  | [] => Some []
  | c :: rest =>
      match containerStats docker (Id c) with
      | inl _ => None
      | inr stats =>
          match statsEntry c stats, statsEntries docker rest with
          | Some e, Some es => Some (e :: es)
          | _, _ => None
          end
      end
  end.

(** [GET /stats]: whatever goes wrong inside the [try] is reported as the
    one error ['Failed to fetch Docker stats']. *)
Definition getStats {Error : Type} (docker : DockerClient Error) : string + list StatsEntry :=
  match listContainers docker with
  | inl _ => inl "Failed to fetch Docker stats"
  | inr containers =>
      match statsEntries docker containers with
      | None => inl "Failed to fetch Docker stats"
      | Some stats => inr stats
      end
  end.

End Formatting.

(** Sample inputs. *)

Definition sampleCpu (total system cpus : Z) : CpuStats :=
  {| cpu_usage := {| total_usage := ofZ total |};
     system_cpu_usage := ofZ system;
     online_cpus := ofZ cpus |}.

Definition sampleStats : Stats :=
  {| cpu_stats := sampleCpu 1200 5000 4;
     precpu_stats := sampleCpu 1000 4000 4;
     memory_stats := {| usage := ofZ 123456789; limit := ofZ 8589934592 |};
     networks := Some [("eth0", {| rx_bytes := ofZ 1000; tx_bytes := ofZ 2000 |});
                       ("eth1", {| rx_bytes := ofZ 500; tx_bytes := ofZ 70 |})];
     blkio_stats := Some {| io_service_bytes_recursive := Some [
         {| op := "Read"; value := ofZ 100 |};
         {| op := "Write"; value := ofZ 5 |};
         {| op := "Read"; value := ofZ 200 |};
         {| op := "Write"; value := ofZ 7 |}] |} |}.

Definition stalledStats : Stats :=
  {| cpu_stats := sampleCpu 1200 4000 4;
     precpu_stats := sampleCpu 1000 4000 4;
     memory_stats := memory_stats sampleStats;
     networks := networks sampleStats;
     blkio_stats := blkio_stats sampleStats |}.

Definition webInfo : ContainerInfo := {| Id := "4f1c"; Names := ["/web"] |}.

Definition oneContainer (stats : Stats) : DockerClient unit :=
  {| listContainers := inr [webInfo]; containerStats := fun _ => inr stats |}.

End DockerStats.

(** ** System information ([routes/system.ts], [GET /info]) *)

Module SystemInfo.
Import JSNumber.

(** The values the handler copies into its answer.  It never inspects them
    beyond the test for [null] and [undefined] of the operator [??]. *)
#[local] Unset Elimination Schemes.
Inductive value :=
| VUndefined
| VNull
| VBool (b : bool)
| VNum (n : number)
| VStr (s : string)
| VArr (l : list value)
| VObj (o : gmap string value).
#[local] Set Elimination Schemes.

(** [a ?? b] *)
Definition nullish (a b : value) : value :=
  match a with
  | VUndefined | VNull => b
  | _ => a
  end.

Definition object (members : list (string * value)) : value :=
  VObj (list_to_map members).

Module Cpu.
Record t := { manufacturer : value; brand : value; cores : value; physicalCores : value }.
End Cpu.

Module Mem.
Record t := { total : value; free : value; used : value; active : value; available : value }.
End Mem.

Module Os.
Record t := {
  hostname : value; platform : value; distro : value; release : value;
  arch : value; uptime : value
}.
End Os.

Module Sys.
Record t := { manufacturer : value; model : value; serial : value }.
End Sys.

Module Load.
Record cpu := { load : value }.
Record t := { avgLoad : value; currentLoad : value; cpus : list cpu }.
End Load.

Module Service.
Record t := { name : value; running : value; startmode : value }.
End Service.

Module DockerInfo.
Record t := {
  containers : value; containersRunning : value; containersPaused : value;
  containersStopped : value; images : value
}.
End DockerInfo.

(** A value of the query string: a parameter given once is a string, a
    repeated one an array of strings. *)
Inductive QueryValue :=
| Single (s : string)
| Repeated (l : list string).

Inductive Failure (Error : Type) :=
| ZodError
| Rejected (e : Error).
Arguments ZodError {Error}.
Arguments Rejected {Error}.

(** [systemInfoSchema.parse(request.query)]: an absent parameter and every
    string other than ['true'] give [false]; a value that is not a string
    is refused. *)
Definition parseDetailed {Error : Type} (query : gmap string QueryValue) : Failure Error + bool :=
  match query !! "detailed" with
  | None => inr false
  | Some (Single s) => inr (String.eqb s "true")
  | Some (Repeated _) => inl ZodError
  end.

(** The host-facts provider at the time of one request: each query either
    rejects or resolves.  [processUptime] is [Math.floor(process.uptime())]. *)
Record Provider (Error : Type) := {
  si_cpu : Error + Cpu.t;
  si_mem : Error + Mem.t;
  si_osInfo : Error + Os.t;
  si_system : Error + Sys.t;
  si_currentLoad : Error + Load.t;
  si_services : Error + list Service.t;
  si_dockerInfo : Error + DockerInfo.t;
  processUptime : number
}.
Arguments si_cpu {Error}.
Arguments si_mem {Error}.
Arguments si_osInfo {Error}.
Arguments si_system {Error}.
Arguments si_currentLoad {Error}.
Arguments si_services {Error}.
Arguments si_dockerInfo {Error}.
Arguments processUptime {Error}.

Definition basicInfo {Error : Type} (si : Provider Error) (cpu : Cpu.t) (mem : Mem.t)
    (os : Os.t) : gmap string value :=
  let systemUptime := nullish (Os.uptime os) (VNum (processUptime si)) in
  list_to_map [
    ("hostname", Os.hostname os);
    ("platform", Os.platform os);
    ("distro", Os.distro os);
    ("release", Os.release os);
    ("arch", Os.arch os);
    ("uptime", systemUptime);
    ("cpu", object [
       ("manufacturer", Cpu.manufacturer cpu);
       ("brand", Cpu.brand cpu);
       ("cores", Cpu.cores cpu);
       ("physicalCores", Cpu.physicalCores cpu)]);
    ("memory", object [
       ("total", Mem.total mem);
       ("free", Mem.free mem);
       ("used", Mem.used mem);
       ("active", Mem.active mem);
       ("available", Mem.available mem)])
  ].

(** The object literal of the detailed answer: the members of [basicInfo]
    spread first, then the four further keys in source order. *)
Definition detailedInfo (basic : gmap string value) (system : Sys.t) (load : Load.t)
    (services : list Service.t) (dockerInfo : DockerInfo.t) : gmap string value :=
  <["docker" := object [
      ("containers", object [
         ("total", nullish (DockerInfo.containers dockerInfo) (VNum (ofZ 0)));
         ("running", nullish (DockerInfo.containersRunning dockerInfo) (VNum (ofZ 0)));
         ("paused", nullish (DockerInfo.containersPaused dockerInfo) (VNum (ofZ 0)));
         ("stopped", nullish (DockerInfo.containersStopped dockerInfo) (VNum (ofZ 0)))]);
      ("images", nullish (DockerInfo.images dockerInfo) (VNum (ofZ 0)))]]>
  (<["services" := VArr (map (fun service => object [
      ("name", Service.name service);
      ("running", Service.running service);
      ("startmode", Service.startmode service)]) services)]>
  (<["load" := object [
      ("avgLoad", nullish (Load.avgLoad load) (Load.currentLoad load));
      ("currentLoad", Load.currentLoad load);
      ("cpuLoad", VArr (map Load.load (Load.cpus load)))]]>
  (<["system" := object [
      ("manufacturer", Sys.manufacturer system);
      ("model", Sys.model system);
      ("serial", Sys.serial system)]]>
   basic))).

(** [GET /info].  A [Promise.all] rejects as soon as one member rejects; the
    model reports the rejection of the first failing member in array
    order. *)
Definition getInfo {Error : Type} (si : Provider Error) (query : gmap string QueryValue)
    : Failure Error + gmap string value :=
  match parseDetailed query with
  | inl z => inl z
  | inr detailed =>
      match si_cpu si, si_mem si, si_osInfo si, si_system si with
      | inr cpu, inr mem, inr os, inr system =>
          let basic := basicInfo si cpu mem os in
          if negb detailed then inr basic
          else
            match si_currentLoad si, si_services si, si_dockerInfo si with
            | inr load, inr services, inr dockerInfo =>
                inr (detailedInfo basic system load services dockerInfo)
            | inl e, _, _ | _, inl e, _ | _, _, inl e => inl (Rejected e)
            end
      | inl e, _, _, _ | _, inl e, _, _ | _, _, inl e, _ | _, _, _, inl e =>
          inl (Rejected e)
      end
  end.

Definition basicKeys : gset string :=
  {[ "hostname"; "platform"; "distro"; "release"; "arch"; "uptime"; "cpu"; "memory" ]}.

Definition detailedKeys : gset string :=
  {[ "system"; "load"; "services"; "docker" ]}.

(** A query that resolved. *)
Definition resolved {E A : Type} (r : E + A) : Prop := exists a, r = inr a.

(** Sample inputs. *)

Definition sampleProvider : Provider unit :=
  {| si_cpu := inr {| Cpu.manufacturer := VStr "Intel"; Cpu.brand := VStr "Core i5";
                      Cpu.cores := VNum (JSNumber.ofZ 8);
                      Cpu.physicalCores := VNum (JSNumber.ofZ 4) |};
     si_mem := inr {| Mem.total := VNum (JSNumber.ofZ 8589934592);
                      Mem.free := VNum (JSNumber.ofZ 1073741824);
                      Mem.used := VNum (JSNumber.ofZ 7516192768);
                      Mem.active := VNum (JSNumber.ofZ 4294967296);
                      Mem.available := VNum (JSNumber.ofZ 4294967296) |};
     si_osInfo := inr {| Os.hostname := VStr "nestos"; Os.platform := VStr "linux";
                         Os.distro := VStr "Debian GNU/Linux"; Os.release := VStr "12";
                         Os.arch := VStr "x64"; Os.uptime := VUndefined |};
     si_system := inr {| Sys.manufacturer := VStr "QEMU"; Sys.model := VStr "Standard PC";
                         Sys.serial := VStr "-" |};
     si_currentLoad := inr {| Load.avgLoad := VNull;
                              Load.currentLoad := VNum (JSNumber.ofZ 12);
                              Load.cpus := [{| Load.load := VNum (JSNumber.ofZ 12) |}] |};
     si_services := inr [{| Service.name := VStr "ssh"; Service.running := VBool true;
                            Service.startmode := VStr "enabled" |}];
     si_dockerInfo := inr {| DockerInfo.containers := VNum (JSNumber.ofZ 2);
                             DockerInfo.containersRunning := VNum (JSNumber.ofZ 1);
                             DockerInfo.containersPaused := VUndefined;
                             DockerInfo.containersStopped := VNum (JSNumber.ofZ 1);
                             DockerInfo.images := VNum (JSNumber.ofZ 5) |};
     processUptime := JSNumber.ofZ 3600 |}.

Definition detailedQuery : gmap string QueryValue := {[ "detailed" := Single "true" ]}.

End SystemInfo.

(** ** Log retrieval ([routes/system.ts], [GET /logs]) *)

Module Logs.

Record ExecOutput := { stdout : string; stderr : string }.

Record Response := { logs : string }.

Definition journalCommand : string := "journalctl -n 1000 --no-pager".
Definition fileCommand : string := "tail -n 1000 /var/log/system.log".
Definition sentinel : string := "No system logs available".

(** The three [return] statements of the handler. *)
Inductive Reply :=
| FromJournal (out : ExecOutput)
| FromFile (out : ExecOutput)
| NoLogs.

Definition response (r : Reply) : Response :=
  match r with
  | FromJournal out => {| logs := stdout out |}
  | FromFile out => {| logs := stdout out |}
  | NoLogs => {| logs := sentinel |}
  end.

Section Handler.

Variable Error : Type.

(** [execAsync]: the promise rejects when the command cannot be run, ends
    with a status other than zero or overflows the output buffer. *)
Variable execAsync : string -> Error + ExecOutput.

(** The nested [try] blocks, with the commands run so far. *)
Definition getLogsReply : list string * Reply :=
  match execAsync journalCommand with
  | inr out => ([journalCommand], FromJournal out)
  | inl _ =>
      match execAsync fileCommand with
      | inr out => ([journalCommand; fileCommand], FromFile out)
      | inl _ => ([journalCommand; fileCommand], NoLogs)
      end
  end.

(** The outer [try] only rethrows; nothing inside it throws any more, so the
    handler always answers. *)
Definition getLogs : Response := response (snd getLogsReply).

Definition failed (command : string) : Prop :=
  exists e, execAsync command = inl e.

End Handler.

(** Sample inputs. *)

Definition journalOnly (command : string) : unit + ExecOutput :=
  if String.eqb command journalCommand
  then inr {| stdout := "Nov 02 host systemd[1]: Started."; stderr := "" |}
  else inl tt.

Definition noSource (command : string) : unit + ExecOutput := inl tt.

End Logs.

(** ** Performance test ([routes/system.ts], [POST /performance]) *)

Module Performance.
Import JSNumber.

(** The character class [[0-9.]]. *)
Definition classChar (c : ascii) : bool :=
  let n := nat_of_ascii c in
  ((48 <=? n)%nat && (n <=? 57)%nat) || Ascii.eqb c ".".

Definition literal : string := " GB/s".

(** [/([0-9.]+) GB\/s/] tried at the start of [s]: the group takes as many
    characters of the class as it can and gives them back one at a time
    until the literal follows.  The result is the capture. *)
Fixpoint matchHere (s : string) : option string :=
  match s with
  | EmptyString => None
  | String c s' =>
      if classChar c then
        match matchHere s' with
        | Some g => Some (String c g)
        | None => if String.prefix literal s' then Some (String c EmptyString) else None
        end
      else None
  end.

(** [stdout.match(...)?.[1]]: the capture of the leftmost match. *)
Fixpoint matchThroughput (s : string) : option string :=
  match matchHere s with
  | Some g => Some g
  | None =>
      match s with
      | EmptyString => None
      | String _ s' => matchThroughput s'
      end
  end.

Definition isDigit (c : ascii) : bool :=
  let n := nat_of_ascii c in (48 <=? n)%nat && (n <=? 57)%nat.

Definition digitValue (c : ascii) : Z := Z.of_nat (nat_of_ascii c) - 48.

(** The longest run of decimal digits at the start of [s] and what is left. *)
Fixpoint spanDigits (s : string) : list Z * string :=
  match s with
  | String c s' =>
      if isDigit c then let '(ds, r) := spanDigits s' in (digitValue c :: ds, r)
      else ([], s)
  | EmptyString => ([], s)
  end.

Definition digitsValue (ds : list Z) : Z := fold_left (fun acc d => 10 * acc + d) ds 0.

(** The binary64 value nearest to [n / 10^k], ties to even. *)
Definition decimalToNumber (n : Z) (k : nat) : number :=
  match n with
  | Z0 => S754_zero false
  | _ =>
      let '(q, e, l) := SFdiv_core_binary prec emax n 0 (10 ^ Z.of_nat k) 0 in
      binary_round_aux prec emax false q e l
  end.

(** [parseFloat] on the strings this handler passes to it: a capture of
    [[0-9.]+] or the literal ['0'], so neither white space, sign, exponent
    nor [Infinity] can occur.  The longest prefix of the form [digits],
    [digits.], [digits.digits] or [.digits] is read; without such a prefix
    the result is NaN. *)
Definition parseFloat (s : string) : number :=
  let '(ip, r) := spanDigits s in
  let '(fp, _) :=
    match r with
    | String "." r' => spanDigits r'
    | _ => ([], r)
    end in
  match ip, fp with
  | [], [] => S754_nan
  | _, _ => decimalToNumber (digitsValue (ip ++ fp)) (length fp)
  end.

(** [parseFloat(stdout.match(/([0-9.]+) GB\/s/)?.[1] || '0') * 1024].  A
    capture is never empty, hence never falsy. *)
Definition throughput (stdout : string) : number :=
  let text :=
    match matchThroughput stdout with
    | Some g => g
    | None => "0"
    end in
  mul (parseFloat text) (ofZ 1024).



(** What the regular expression describes: somewhere in [s] a non-empty
    run [g] of class characters is followed by the literal. *)
Definition allClass (g : string) : Prop :=
  Forall (fun c => classChar c = true) (list_ascii_of_string g).


(** An occurrence of the pattern starts at the first character of [s]. *)
Definition StartsMatch (s : string) : Prop :=
  exists g post, g <> EmptyString /\ allClass g /\ s = g ++ literal ++ post.

(** What the regular expression captures, in words: [g] is a non-empty run
    of class characters followed by the literal, and no occurrence of the
    pattern starts at an earlier place of [s]. *)
Definition LeftmostCapture (s g : string) : Prop :=
  exists pre post,
    s = pre ++ g ++ literal ++ post /\ g <> EmptyString /\ allClass g
    /\ forall pre1 pre2, pre = pre1 ++ pre2 -> pre2 <> EmptyString ->
         ~ StartsMatch (pre2 ++ g ++ literal ++ post).




(** Sample inputs. *)

Definition ddFast : string :=
  "1048576000 bytes (1.0 GB, 1000 MiB) copied, 0.0818 s, 12.8 GB/s".

End Performance.

(** ** Containers and images ([routes/docker.ts]) *)

Module DockerRoutes.

(** A port of the request body.  The schema asks for [z.number()]: any
    number but NaN, fractions and infinities included. *)
Module Port.
Record t := { container : JSNumber.number; host : JSNumber.number }.
End Port.

Module Volume.
Record t := { container : string; host : string }.
End Volume.

Inductive Restart := RestartNo | RestartAlways | RestartOnFailure | RestartUnlessStopped.

Definition restartName (r : Restart) : string :=
  match r with
  | RestartNo => "no"
  | RestartAlways => "always"
  | RestartOnFailure => "on-failure"
  | RestartUnlessStopped => "unless-stopped"
  end.

(** A request body accepted by [containerSchema]; [env] lists the entries of
    the record in enumeration order. *)
Record ContainerSpec := {
  image : string;
  name : string;
  ports : option (list Port.t);
  volumes : option (list Volume.t);
  env : option (list (string * string));
  restart : option Restart
}.

Record PortBinding := { HostPort : string }.

Record HostConfig := {
  PortBindings : gmap string (list PortBinding);
  Binds : option (list string);
  RestartPolicy : option string
}.

Record CreateOptions := {
  Image : string;
  containerName : string;
  ExposedPorts : gmap string unit;
  hostConfig : HostConfig;
  Env : option (list string)
}.

Definition numeral (z : Z) : string := NilZero.string_of_int (Z.to_int z).

(** The integer a number is, if it is one. *)
Definition integerValue (x : JSNumber.number) : option Z :=
  match x with
  | S754_zero _ => Some 0
  | S754_finite s m e =>
      let signed (n : Z) := if s then - n else n in
      if (0 <=? e)%Z then Some (signed (Zpos m * 2 ^ e))
      else if (Zpos m mod 2 ^ (- e) =? 0)%Z then Some (signed (Zpos m / 2 ^ (- e)))
      else None
  | S754_infinity _ | S754_nan => None
  end.

(** 2^53: below it every integer is a number and prints all its digits. *)
Definition maxSafe : Z := 9007199254740992.

Section Create.

(** [Number::toString] on the other finite numbers, fractions and
    magnitudes of 2^53 and more: the shortest digit string that reads back
    as the same binary64 value, in positional or, from 10^21 on, exponent
    notation.  Which digits those are is left to the engine; the
    development takes the function as given. *)
Variable otherNotation : JSNumber.number -> string.

(** [Number::toString], which both the template literal and
    [host.toString()] apply.  Non-finite values print their name, both
    zeros print [0], an integer of magnitude below 2^53 prints its decimal
    numeral. *)
Definition toString (x : JSNumber.number) : string :=
  match x with
  | S754_nan => "NaN"
  | S754_infinity false => "Infinity"
  | S754_infinity true => "-Infinity"
  | _ =>
      match integerValue x with
      | Some n => if (Z.abs n <? maxSafe)%Z then numeral n else otherNotation x
      | None => otherNotation x
      end
  end.

Definition portStr (p : Port.t) : string := toString (Port.container p) ++ "/tcp".

(** One turn of the [forEach] callback on the two objects. *)
Definition addPort (acc : gmap string unit * gmap string (list PortBinding)) (p : Port.t)
    : gmap string unit * gmap string (list PortBinding) :=
  (<[portStr p := tt]> (fst acc),
   <[portStr p := [{| HostPort := toString (Port.host p) |}]]> (snd acc)).

(** [ports?.forEach(...)] from the two empty objects. *)
Definition portMaps (ports : option (list Port.t))
    : gmap string unit * gmap string (list PortBinding) :=
  match ports with
  | None => (∅, ∅)
  | Some l => fold_left addPort l (∅, ∅)
  end.

Definition exposedPorts (spec : ContainerSpec) : gmap string unit := fst (portMaps (ports spec)).

Definition portBindings (spec : ContainerSpec) : gmap string (list PortBinding) :=
  snd (portMaps (ports spec)).

(** The argument of [docker.createContainer]. *)
Definition createOptions (spec : ContainerSpec) : CreateOptions :=
  {| Image := image spec;
     containerName := name spec;
     ExposedPorts := exposedPorts spec;
     hostConfig :=
       {| PortBindings := portBindings spec;
          Binds := option_map (map (fun v => Volume.host v ++ ":" ++ Volume.container v))
                     (volumes spec);
          RestartPolicy := option_map restartName (restart spec) |};
     Env := option_map (map (fun kv => fst kv ++ "=" ++ snd kv)) (env spec) |}.

(** The reading "every entry of the ports list is exposed and bound to its
    own host port". *)
Definition bindsEveryPort (spec : ContainerSpec) : Prop :=
  forall (l : list Port.t) (p : Port.t),
    ports spec = Some l -> In p l ->
    exposedPorts spec !! portStr p = Some tt
    /\ portBindings spec !! portStr p = Some [{| HostPort := toString (Port.host p) |}].

End Create.

(** The calls the two [DELETE] handlers send to the Docker Engine. *)
Inductive DockerCall :=
| ContainerRemove (id : string) (force : bool)
| ImageRemove (id : string) (force : bool).

Definition callForce (c : DockerCall) : bool :=
  match c with
  | ContainerRemove _ force => force
  | ImageRemove _ force => force
  end.

Inductive Failure (Error : Type) :=
| ZodError
| Rejected (e : Error).
Arguments ZodError {Error}.
Arguments Rejected {Error}.

Record Status := { status : string }.

(** The schema of the two [DELETE] routes applied to [request.params]:
    [id] must be present; [force] is an optional string turned into the
    boolean [val === 'true']. *)
Definition parseRemoveParams (params : gmap string string) : option (string * bool) :=
  match params !! "id" with
  | None => None
  | Some id => Some (id, bool_decide (params !! "force" = Some "true"))
  end.

Section Remove.

Variable Error : Type.

(** The Docker Engine: a call resolves ([None]) or rejects. *)
Variable docker : DockerCall -> option Error.

(** A handler run: the calls sent, then the answer or the failure. *)
Definition removeWith (call : string -> bool -> DockerCall) (params : gmap string string)
    : list DockerCall * (Failure Error + Status) :=
  match parseRemoveParams params with
  | None => ([], inl ZodError)
  | Some (id, _) =>
      let c := call id false in
      match docker c with
      | Some e => ([c], inl (Rejected e))
      | None => ([c], inr {| status := "removed" |})
      end
  end.

(** [DELETE /containers/:id] *)
Definition deleteContainer : gmap string string -> list DockerCall * (Failure Error + Status) :=
  removeWith ContainerRemove.

(** [DELETE /images/:id] *)
Definition deleteImage : gmap string string -> list DockerCall * (Failure Error + Status) :=
  removeWith ImageRemove.

End Remove.

(** Sample inputs. *)

Definition webSpec (l : list Port.t) : ContainerSpec :=
  {| image := "nginx:latest"; name := "web"; ports := Some l; volumes := None;
     env := None; restart := None |}.

Definition port (container host : Z) : Port.t :=
  {| Port.container := JSNumber.ofZ container; Port.host := JSNumber.ofZ host |}.

Definition twiceSpec : ContainerSpec := webSpec [port 80 8080; port 80 9090].

Definition plainParams : gmap string string := {[ "id" := "4f1c" ]}.
Definition forcedParams : gmap string string := <[ "force" := "true" ]> plainParams.

End DockerRoutes.

(** ** ISO builder ([iso-builder], [buildIso]) *)

Module IsoBuilder.

Inductive Step :=
| SetupBuildEnvironment
| DownloadBaseSystem
| ConfigureSystem
| InstallPackages
| InstallNestOSComponents
| CreateISO.

Definition pipeline : list Step :=
  [SetupBuildEnvironment; DownloadBaseSystem; ConfigureSystem; InstallPackages;
   InstallNestOSComponents; CreateISO].

(** The place of a step in the pipeline, from 1. *)
Definition position (s : Step) : nat :=
  match s with
  | SetupBuildEnvironment => 1
  | DownloadBaseSystem => 2
  | ConfigureSystem => 3
  | InstallPackages => 4
  | InstallNestOSComponents => 5
  | CreateISO => 6
  end.

(** What the spinner of a step reports. *)
Inductive Event :=
| Started (s : Step)
| Succeeded (s : Step)
| Failed (s : Step).

(** How [buildIso] ends: it returns, or it calls [process.exit]. *)
Inductive Outcome :=
| Returned
| Exited (code : Z).

Section Pipeline.

(** The machine the commands act on, and what they throw. *)
Variable World : Type.
Variable Error : Type.

(** The commands of each step up to the report of its success: the machine
    they leave behind and the error thrown, if any. *)
Variable commands : Step -> World -> World * option Error.

(** [setupBuildEnvironment] goes on after that report, still inside its
    [try]: it prints the tree of the build directory. *)
Variable listing : World -> World * option Error.

Record Process := { world : World; events : list Event }.

(** State and exceptions. *)
Definition M (A : Type) : Type := Process -> (Error + A) * Process.

Definition ret {A : Type} (a : A) : M A := fun p => (inr a, p).

Definition bind {A B : Type} (m : M A) (k : A -> M B) : M B :=
  fun p =>
    match m p with
    | (inr a, p') => k a p'
    | (inl e, p') => (inl e, p')
    end.

Definition throw {A : Type} (e : Error) : M A := fun p => (inl e, p).

Definition tryCatch {A : Type} (m : M A) (handler : Error -> M A) : M A :=
  fun p =>
    match m p with
    | (inr a, p') => (inr a, p')
    | (inl e, p') => handler e p'
    end.

Definition emit (ev : Event) : M unit :=
  fun p => (inr tt, {| world := world p; events := events p ++ [ev] |}).

Definition exec (c : World -> World * option Error) : M unit :=
  fun p =>
    let '(w, r) := c (world p) in
    let p' := {| world := w; events := events p |} in
    match r with
    | None => (inr tt, p')
    | Some e => (inl e, p')
    end.

Definition run (s : Step) : M unit := exec (commands s).

Local Notation "m1 ;; m2" := (bind m1 (fun _ => m2))
  (at level 100, m2 at level 200, only parsing, right associativity).

(** The frame of the six step functions: start the spinner and run the body
    in a [try]; on an error report the failure and throw the error again. *)
Definition guarded (s : Step) (body : M unit) : M unit :=
  emit (Started s) ;;
  tryCatch body (fun error => emit (Failed s) ;; throw error).

(** The body of five of them: the commands, then the report of success. *)
Definition step (s : Step) : M unit :=
  guarded s (run s ;; emit (Succeeded s)).

Definition setupBuildEnvironment : M unit :=
  guarded SetupBuildEnvironment
    (run SetupBuildEnvironment ;; emit (Succeeded SetupBuildEnvironment) ;; exec listing).

Definition downloadBaseSystem : M unit := step DownloadBaseSystem.
Definition configureSystem : M unit := step ConfigureSystem.
Definition installPackages : M unit := step InstallPackages.
Definition installNestOSComponents : M unit := step InstallNestOSComponents.
Definition createISO : M unit := step CreateISO.

Definition buildIso (p : Process) : Outcome * Process :=
  match
    (setupBuildEnvironment ;;
     downloadBaseSystem ;;
     configureSystem ;;
     installPackages ;;
     installNestOSComponents ;;
     createISO) p
  with
  | (inr _, p') => (Returned, p')
  | (inl _, p') => (Exited 1, p')
  end.

Definition stepFunction (s : Step) : M unit :=
  match s with
  | SetupBuildEnvironment => setupBuildEnvironment
  | DownloadBaseSystem => downloadBaseSystem
  | ConfigureSystem => configureSystem
  | InstallPackages => installPackages
  | InstallNestOSComponents => installNestOSComponents
  | CreateISO => createISO
  end.

(** The step functions of a list one after the other. *)
Fixpoint runAll (l : list Step) : M unit :=
  match l with
  | [] => ret tt
  | s :: l' => stepFunction s ;; runAll l'
  end.

(** The events of a step that ran to its end, and of one that failed, before
    or after the report of its success. *)
Definition success (s : Step) : list Event := [Started s; Succeeded s].
Definition failure (s : Step) : list Event := [Started s; Failed s].
Definition lateFailure (s : Step) : list Event := [Started s; Succeeded s; Failed s].

Definition failureTrace (s : Step) (evs : list Event) : Prop :=
  evs = failure s \/ evs = lateFailure s.

Definition started (evs : list Event) : list Step :=
  flat_map (fun ev => match ev with Started s => [s] | _ => [] end) evs.

Definition failedSteps (evs : list Event) : list Step :=
  flat_map (fun ev => match ev with Failed s => [s] | _ => [] end) evs.

End Pipeline.

(** Sample input: a machine counting the steps run on it, on which the step
    [bad] fails. *)
Definition failAt (bad : Step) (s : Step) (w : nat) : nat * option string :=
  (S w, if (position s =? position bad)%nat then Some "Command failed with exit code 100"
        else None).

Definition noListing (w : nat) : nat * option string := (w, None).

End IsoBuilder.

(** ** Further cases of the statistics *)

Module StatsCases.
Import JSNumber DockerStats.

(** The sample of a stopped container. *)
Definition stoppedStats : Stats :=
  {| cpu_stats := cpu_stats sampleStats;
     precpu_stats := precpu_stats sampleStats;
     memory_stats := {| usage := ofZ 0; limit := ofZ 0 |};
     networks := None;
     blkio_stats := None |}.

(** The sample [stats] with the block entries [l]. *)
Definition withEntries (stats : Stats) (l : list BlockIOStats) : Stats :=
  {| cpu_stats := cpu_stats stats;
     precpu_stats := precpu_stats stats;
     memory_stats := memory_stats stats;
     networks := networks stats;
     blkio_stats := Some {| io_service_bytes_recursive := Some l |} |}.

(** The character [c] occurs in [s]. *)
Fixpoint occurs (c : ascii) (s : string) : bool :=
  match s with
  | EmptyString => false
  | String a s' => Ascii.eqb a c || occurs c s'
  end.

(** A second container. *)
Definition dbInfo : ContainerInfo := {| Id := "9a2e"; Names := ["/db"] |}.

(** A Docker Engine on which the second container has gone. *)
Definition webUpDbGone : DockerClient string :=
  {| listContainers := inr [webInfo; dbInfo];
     containerStats := fun id =>
       if String.eqb id "4f1c" then inr sampleStats else inl "no such container" |}.

End StatsCases.

(** ** Further cases of the system information *)

Module InfoCases.
Import SystemInfo.

(** Neither [undefined] nor [null]. *)
Definition nonNullish (v : value) : Prop := v <> VUndefined /\ v <> VNull.

(** The query [?detailed=TRUE]. *)
Definition shoutedQuery : gmap string QueryValue := {[ "detailed" := Single "TRUE" ]}.

(** A provider whose queries fail. *)
Definition withoutSystem : Provider string :=
  {| si_cpu := inl "";
     si_mem := inl "";
     si_osInfo := inl "";
     si_system := inl "dmidecode: command not found";
     si_currentLoad := inl "";
     si_services := inl "";
     si_dockerInfo := inl "";
     processUptime := JSNumber.ofZ 0 |}.

(** The sample host without load, services and Docker queries. *)
Definition sampleProviderNoDocker : Provider unit :=
  {| si_cpu := si_cpu sampleProvider;
     si_mem := si_mem sampleProvider;
     si_osInfo := si_osInfo sampleProvider;
     si_system := si_system sampleProvider;
     si_currentLoad := inl tt;
     si_services := inl tt;
     si_dockerInfo := inl tt;
     processUptime := processUptime sampleProvider |}.

(** A provider whose records hold nulls only. *)
Definition blankProvider : Provider unit :=
  {| si_cpu := inr {| Cpu.manufacturer := VNull; Cpu.brand := VNull;
                      Cpu.cores := VNull; Cpu.physicalCores := VNull |};
     si_mem := inr {| Mem.total := VNull; Mem.free := VNull; Mem.used := VNull;
                      Mem.active := VNull; Mem.available := VNull |};
     si_osInfo := inr {| Os.hostname := VNull; Os.platform := VNull;
                         Os.distro := VNull; Os.release := VNull;
                         Os.arch := VNull; Os.uptime := VNull |};
     si_system := si_system sampleProvider;
     si_currentLoad := si_currentLoad sampleProvider;
     si_services := si_services sampleProvider;
     si_dockerInfo := si_dockerInfo sampleProvider;
     processUptime := processUptime sampleProvider |}.

End InfoCases.

(** ** Shapes of the captured text *)

Module PerformanceCases.
Import JSNumber Performance.

(** All characters of [s] are digits. *)
Fixpoint allDigits (s : string) : bool :=
  match s with
  | EmptyString => true
  | String c s' => isDigit c && allDigits s'
  end.

(** The sign bit is not set. *)
Definition notNegative (x : number) : Prop :=
  match x with
  | S754_zero s | S754_infinity s | S754_finite s _ _ => s = false
  | S754_nan => True
  end.

(** The last character of [s] belongs to the class. *)
Fixpoint endsWithClass (s : string) : bool :=
  match s with
  | EmptyString => false
  | String c EmptyString => classChar c
  | String _ s' => endsWithClass s'
  end.

(** The first character of [s] is a digit. *)
Definition startsWithDigit (s : string) : bool :=
  match s with
  | String c _ => isDigit c
  | EmptyString => false
  end.

(** Structural equality of two numbers. *)
Definition sameNumber (x y : number) : bool :=
  match x, y with
  | S754_zero s, S754_zero s' => Bool.eqb s s'
  | S754_infinity s, S754_infinity s' => Bool.eqb s s'
  | S754_nan, S754_nan => true
  | S754_finite s m e, S754_finite s' m' e' => Bool.eqb s s' && Pos.eqb m m' && Z.eqb e e'
  | _, _ => false
  end.

End PerformanceCases.

(** ** The container dialog of the control panel ([CreateContainerDialog.tsx]) *)

Module CreateContainerDialog.

Inductive Protocol := Tcp | Udp.

Inductive Mode := Rw | Ro.

(** A row of the port list.  The two numbers come from [parseInt]: an
    integer-valued number, an infinity for a field with very many digits,
    or NaN when the field does not start with a digit. *)
Module Port.
Record t := { container : JSNumber.number; host : JSNumber.number; protocol : Protocol }.
End Port.

Module Volume.
Record t := { container : string; host : string; mode : Mode }.
End Volume.

Record EnvVar := { key : string; value : string }.

Module Device.
Record t := { host : string; container : string; permissions : string }.
End Device.

(** The state of the form.  [memory] and [cpuShares] hold a number or the
    empty string ([None]). *)
Record FormState := {
  image : string;
  name : string;
  ports : list Port.t;
  volumes : list Volume.t;
  envVars : list EnvVar;
  restart : string;
  privileged : bool;
  networkMode : string;
  hostname : string;
  devices : list Device.t;
  command : list string;
  memory : option JSNumber.number;
  cpuShares : option JSNumber.number;
  labels : list EnvVar
}.

(** An object with string values, as the list of its members in the order
    of enumeration: the keys that are array indices first, in ascending
    order, then the other keys in the order of their creation. *)
Definition object : Type := list (string * string).

(** The array index a key denotes: a canonical decimal numeral below
    [2^32 - 1]. *)
Definition arrayIndex (k : string) : option Z :=
  match NilZero.int_of_string k with
  | Some d =>
      let n := Z.of_int d in
      if String.eqb (DockerRoutes.numeral n) k && (0 <=? n)%Z && (n <? 4294967295)%Z
      then Some n else None
  | None => None
  end.

Definition hasKey (k : string) (o : object) : bool :=
  existsb (fun kv => String.eqb (fst kv) k) o.

Fixpoint update (k v : string) (o : object) : object :=
  match o with
  | [] => []
  | (k', v') :: o' =>
      if String.eqb k' k then (k', v) :: o' else (k', v') :: update k v o'
  end.

Fixpoint insertIndex (n : Z) (k v : string) (o : object) : object :=
  match o with
  | [] => [(k, v)]
  | (k', v') :: o' =>
      match arrayIndex k' with
      | Some n' => if (n' <? n)%Z then (k', v') :: insertIndex n k v o' else (k, v) :: o
      | None => (k, v) :: o
      end
  end.

(** Defining the member [k] of an object: an existing member keeps its
    place and takes the new value. *)
Definition setProperty (o : object) (k v : string) : object :=
  if hasKey k o then update k v o
  else
    match arrayIndex k with
    | Some n => insertIndex n k v o
    | None => (o ++ [(k, v)])%list
    end.

(** [Object.fromEntries] *)
Definition fromEntries (entries : list (string * string)) : object :=
  fold_left (fun o kv => setProperty o (fst kv) (snd kv)) entries [].

Module SubmittedPort.
Record t := { container : JSNumber.number; host : JSNumber.number; protocol : Protocol }.
End SubmittedPort.

Module SubmittedVolume.
Record t := { container : string; host : string; mode : Mode }.
End SubmittedVolume.

(** The object [handleSubmit] hands to the mutation; [None] is
    [undefined]. *)
Record Submission := {
  data_image : string;
  data_name : string;
  data_ports : list SubmittedPort.t;
  data_volumes : list SubmittedVolume.t;
  data_env : object;
  data_restart : string;
  data_privileged : bool;
  data_network_mode : string;
  data_hostname : option string;
  data_devices : option (list Device.t);
  data_command : option (list string);
  data_memory : option JSNumber.number;
  data_cpu_shares : option JSNumber.number;
  data_labels : option object
}.

Definition entries (l : list EnvVar) : list (string * string) :=
  map (fun e => (key e, value e)) l.

Definition handleSubmit (form : FormState) : Submission :=
  {| data_image := image form;
     data_name := name form;
     data_ports :=
       map (fun p => {| SubmittedPort.container := Port.container p;
                        SubmittedPort.host := Port.host p;
                        SubmittedPort.protocol := Port.protocol p |}) (ports form);
     data_volumes :=
       map (fun v => {| SubmittedVolume.container := Volume.container v;
                        SubmittedVolume.host := Volume.host v;
                        SubmittedVolume.mode := Volume.mode v |}) (volumes form);
     data_env := fromEntries (entries (envVars form));
     data_restart := restart form;
     data_privileged := privileged form;
     data_network_mode := networkMode form;
     data_hostname :=
       if String.eqb (hostname form) "" then None else Some (hostname form);
     data_devices :=
       match devices form with
       | [] => None
       | _ => Some (devices form)
       end;
     data_command :=
       match command form with
       | [] => None
       | _ => Some (command form)
       end;
     data_memory := memory form;
     data_cpu_shares := cpuShares form;
     data_labels :=
       match labels form with
       | [] => None
       | _ => Some (fromEntries (entries (labels form)))
       end |}.

(** [z.enum(['no', 'always', 'on-failure', 'unless-stopped'])] *)
Definition parseRestart (s : string) : option DockerRoutes.Restart :=
  if String.eqb s "no" then Some DockerRoutes.RestartNo
  else if String.eqb s "always" then Some DockerRoutes.RestartAlways
  else if String.eqb s "on-failure" then Some DockerRoutes.RestartOnFailure
  else if String.eqb s "unless-stopped" then Some DockerRoutes.RestartUnlessStopped
  else None.

(** A number after [JSON.stringify] and the parsing of the body: NaN and
    the infinities are written as [null] ([None]), minus zero as [0], and
    every other number reads back as itself. *)
Definition jsonNumber (x : JSNumber.number) : option JSNumber.number :=
  match x with
  | S754_nan | S754_infinity _ => None
  | S754_zero _ => Some (S754_zero false)
  | S754_finite _ _ _ => Some x
  end.

(** [z.number()] refuses [null]. *)
Definition parsePort (p : SubmittedPort.t) : option DockerRoutes.Port.t :=
  match jsonNumber (SubmittedPort.container p), jsonNumber (SubmittedPort.host p) with
  | Some c, Some h => Some {| DockerRoutes.Port.container := c; DockerRoutes.Port.host := h |}
  | _, _ => None
  end.

Fixpoint parsePorts (l : list SubmittedPort.t) : option (list DockerRoutes.Port.t) :=
  match l with
  | [] => Some []
  | p :: l' =>
      match parsePort p, parsePorts l' with
      | Some q, Some qs => Some (q :: qs)
      | _, _ => None
      end
  end.

(** [containerSchema.parse] on the body the dialog posts, for the two
    members a check can refuse: the other members the dialog sends are
    strings where the schema asks for strings.  [None] is a [ZodError]. *)
Definition containerSchema (data : Submission)
    : option (list DockerRoutes.Port.t * DockerRoutes.Restart) :=
  match parsePorts (data_ports data), parseRestart (data_restart data) with
  | Some ps, Some r => Some (ps, r)
  | _, _ => None
  end.

(** The value of the last row for the key [k]. *)
Definition lastValue (k : string) (l : list (string * string)) : option string :=
  fold_left (fun acc kv => if String.eqb (fst kv) k then Some (snd kv) else acc) l None.

Definition restartNames : list string := ["no"; "always"; "on-failure"; "unless-stopped"].

Definition blankForm : FormState :=
  {| image := "nginx:latest"; name := "web"; ports := []; volumes := []; envVars := [];
     restart := "no"; privileged := false; networkMode := "bridge"; hostname := "";
     devices := []; command := []; memory := None; cpuShares := None; labels := [] |}.

(** A form with a UDP port and a repeated variable. *)
Definition dnsForm : FormState :=
  {| image := "pihole/pihole"; name := "dns";
     ports := [{| Port.container := JSNumber.ofZ 53; Port.host := JSNumber.ofZ 53;
                  Port.protocol := Udp |}];
     volumes := [];
     envVars := [{| key := "TZ"; value := "UTC" |}; {| key := "TZ"; value := "Europe/Oslo" |}];
     restart := "always"; privileged := false; networkMode := "bridge"; hostname := "";
     devices := []; command := []; memory := None; cpuShares := None; labels := [] |}.

End CreateContainerDialog.

(** ** Kernel and initrd of the image ([iso-builder], [createISO]) *)

Module IsoFiles.

Definition kernelPrefix : string := "vmlinuz-".
Definition initrdPrefix : string := "initrd.img-".

(** [bootFiles.find(file => file.startsWith(...))] *)
Definition kernelFile (bootFiles : list string) : option string :=
  find (String.prefix kernelPrefix) bootFiles.

Definition initrdFile (bootFiles : list string) : option string :=
  find (String.prefix initrdPrefix) bootFiles.

(** [!file]: [undefined] or the empty string. *)
Definition missing (file : option string) : bool :=
  match file with
  | None => true
  | Some EmptyString => true
  | Some _ => false
  end.

(** The two files [createISO] copies, or [None] where it throws ['Kernel or
    initrd files not found']. *)
Definition selectBootFiles (bootFiles : list string) : option (string * string) :=
  match kernelFile bootFiles, initrdFile bootFiles with
  | Some k, Some i =>
      if missing (Some k) || missing (Some i) then None else Some (k, i)
  | _, _ => None
  end.

End IsoFiles.

(** ** The commands of a build, without the reporting *)

Module IsoReference.
Import IsoBuilder.

Section Reference.

Variable World : Type.
Variable Error : Type.
Variable commands : Step -> World -> World * option Error.
Variable listing : World -> World * option Error.

(** All the commands of one step function. *)
Definition stepCommands (s : Step) (w : World) : World * option Error :=
  match commands s w with
  | (w', Some e) => (w', Some e)
  | (w', None) =>
      match s with
      | SetupBuildEnvironment => listing w'
      | _ => (w', None)
      end
  end.

(** The commands of a list of steps, up to the first error. *)
Fixpoint runCommands (l : list Step) (w : World) : World * option Error :=
  match l with
  | [] => (w, None)
  | s :: l' =>
      match stepCommands s w with
      | (w', None) => runCommands l' w'
      | (w', Some e) => (w', Some e)
      end
  end.

End Reference.

End IsoReference.

(** * Properties *)

(** ** Binary64 facts used by the byte formatter *)

Module NumberFacts.
Import JSNumber.

(** A mantissa of [d] binary digits lies between [2^(d-1)] and [2^d]. *)
Lemma digits2_pos_bounds (m : positive) :
  2 ^ (Zpos (digits2_pos m) - 1) <= Zpos m < 2 ^ Zpos (digits2_pos m).
Proof.
  induction m as [p IH | p IH |]; simpl digits2_pos.
  - rewrite Pos2Z.inj_succ.
    replace (Z.succ (Zpos (digits2_pos p)) - 1) with (Z.succ (Zpos (digits2_pos p) - 1)) by lia.
    rewrite !Z.pow_succ_r by lia. lia.
  - rewrite Pos2Z.inj_succ.
    replace (Z.succ (Zpos (digits2_pos p)) - 1) with (Z.succ (Zpos (digits2_pos p) - 1)) by lia.
    rewrite !Z.pow_succ_r by lia. lia.
  - simpl. lia.
Qed.

Lemma ofZ_1024 : ofZ 1024 = S754_finite false 4503599627370496 (-42).
Proof. reflexivity. Qed.

Lemma ofZ_0 : ofZ 0 = S754_zero false.
Proof. reflexivity. Qed.

(** A canonical mantissa has at most 53 digits, and exactly 53 above the
    smallest exponent. *)
Lemma bounded_digits (m : positive) (e : Z) :
  bounded prec emax m e = true ->
  Zpos (digits2_pos m) <= 53 /\ e <= 971 /\ -1074 <= e /\ (-1074 < e -> Zpos (digits2_pos m) = 53).
Proof.
  unfold bounded, canonical_mantissa, fexp, SpecFloat.emin, prec, emax.
  intros H. apply andb_prop in H as [H1 H2].
  apply Z.eqb_eq in H1. apply Z.leb_le in H2. lia.
Qed.

(** [size >= 1024] on a canonical positive value: the exponent is at least
    that of 1024 and the value is normal. *)
Lemma geb_1024_true (m : positive) (e : Z) :
  bounded prec emax m e = true ->
  geb (S754_finite false m e) (ofZ 1024) = true ->
  -42 <= e /\ Zpos (digits2_pos m) = 53.
Proof.
  intros Hb. rewrite ofZ_1024. unfold geb, SFleb, SFcompare.
  destruct (bounded_digits m e Hb) as (_ & _ & _ & Hd).
  destruct (Z.compare_spec (-42) e) as [He | He | He]; intros H; try discriminate; lia.
Qed.

Lemma geb_1024_false (m : positive) (e : Z) :
  geb (S754_finite false m e) (ofZ 1024) = false ->
  e < -42 \/ (e = -42 /\ Zpos m < 4503599627370496).
Proof.
  rewrite ofZ_1024. unfold geb, SFleb, SFcompare.
  destruct (Z.compare_spec (-42) e) as [He | He | He]; intros H.
  - right. split; [lia |].
    change (Pos.compare_cont Eq 4503599627370496 m) with (Pos.compare 4503599627370496 m) in H.
    destruct (Pos.compare_spec 4503599627370496 m) as [Hc | Hc | Hc]; try discriminate.
    exact Hc.
  - discriminate.
  - left. lia.
Qed.

Lemma div_eucl_div_mod (a b : Z) : Z.div_eucl a b = (a / b, a mod b).
Proof. unfold Z.div, Z.modulo. destruct (Z.div_eucl a b). reflexivity. Qed.

(** Dividing a value of at least 1024 by 1024 is exact: the mantissa stays
    and the exponent drops by 10.  No rounding takes place in the loop of
    [formatBytes]. *)
Lemma div_1024_exact (m : positive) (e : Z) :
  bounded prec emax m e = true ->
  geb (S754_finite false m e) (ofZ 1024) = true ->
  div (S754_finite false m e) (ofZ 1024) = S754_finite false m (e - 10)
  /\ bounded prec emax m (e - 10) = true.
Proof.
  intros Hb Hg.
  destruct (geb_1024_true m e Hb Hg) as [He Hd].
  destruct (bounded_digits m e Hb) as (_ & Hmax & _ & _).
  split.
  - rewrite ofZ_1024. unfold div, SFdiv, SFdiv_core_binary.
    cbn [Zdigits2 xorb]. rewrite Hd.
    change (Zpos (digits2_pos 4503599627370496)) with 53.
    replace (fexp prec emax (53 + e - (53 + -42))) with (e - 11)
      by (unfold fexp, SpecFloat.emin, prec, emax; lia).
    replace (Z.min (e - 11) (e - -42)) with (e - 11) by lia.
    replace (e - -42 - (e - 11)) with 53 by lia.
    rewrite div_eucl_div_mod.
    rewrite Z.shiftl_mul_pow2 by lia.
    replace (Zpos m * 2 ^ 53) with (Zpos m~0 * 4503599627370496) by (change (2 ^ 53) with 9007199254740992; lia).
    rewrite Z.div_mul by lia. rewrite Z.mod_mul by lia.
    unfold binary_round_aux, shr_fexp.
    cbn [new_location Z.even new_location_even Z.eqb shr_record_of_loc Zdigits2 digits2_pos].
    rewrite Pos2Z.inj_succ, Hd.
    replace (fexp prec emax (Z.succ 53 + (e - 11)) - (e - 11)) with 1
      by (unfold fexp, SpecFloat.emin, prec, emax; lia).
    cbn [shr SpecFloat.iter_pos shr_1 shr_m loc_of_shr_record round_nearest_even orb Zdigits2].
    rewrite Hd.
    replace (fexp prec emax (53 + (e - 11 + 1)) - (e - 11 + 1)) with 0
      by (unfold fexp, SpecFloat.emin, prec, emax; lia).
    cbn [shr shr_m].
    replace (e - 11 + 1 <=? emax - prec)%Z with true
      by (symmetry; apply Z.leb_le; unfold prec, emax; lia).
    f_equal. lia.
  - unfold bounded, canonical_mantissa. rewrite Hd.
    apply andb_true_intro. split.
    + apply Z.eqb_eq. unfold fexp, SpecFloat.emin, prec, emax. lia.
    + apply Z.leb_le. unfold prec, emax. lia.
Qed.

Local Open Scope Q_scope.

Lemma two_neq_0 : ~ 2 == 0.
Proof. discriminate. Qed.

(** Ten off the exponent divides the denoted real number by 1024. *)
Lemma value_scale (m : positive) (e : Z) :
  value (S754_finite false m (e - 10)) == value (S754_finite false m e) / 1024.
Proof.
  unfold value. rewrite Qpower_minus by exact two_neq_0.
  change (2 ^ 10) with 1024. unfold Qdiv. ring.
Qed.

Lemma value_nonneg (m : positive) (e : Z) : 0 <= value (S754_finite false m e).
Proof.
  unfold value. apply Qmult_le_0_compat.
  - unfold Qle. simpl. lia.
  - apply Qpower_0_le. discriminate.
Qed.

Lemma pow2_pos (e : Z) : 0 < 2 ^ e.
Proof. apply Qpower_0_lt. reflexivity. Qed.

(** The comparison of the loop agrees with the order of the real numbers. *)
Lemma value_ge_1024 (m : positive) (e : Z) :
  bounded prec emax m e = true ->
  geb (S754_finite false m e) (ofZ 1024) = true ->
  1024 <= value (S754_finite false m e).
Proof.
  intros Hb Hg. destruct (geb_1024_true m e Hb Hg) as [He Hd].
  pose proof (digits2_pos_bounds m) as [Hlo _]. rewrite Hd in Hlo.
  unfold value.
  apply Qle_trans with (2 ^ 52 * 2 ^ e).
  - rewrite <- Qpower_plus by exact two_neq_0.
    change 1024 with (2 ^ 10). apply Qpower_le_compat_l; [lia | discriminate].
  - apply Qmult_le_compat_r; [| apply Qlt_le_weak, pow2_pos].
    change (2 ^ 52) with (inject_Z (2 ^ (53 - 1))). rewrite <- Zle_Qle. exact Hlo.
Qed.

Lemma value_lt_1024 (m : positive) (e : Z) :
  bounded prec emax m e = true ->
  geb (S754_finite false m e) (ofZ 1024) = false ->
  value (S754_finite false m e) < 1024.
Proof.
  intros Hb Hg.
  destruct (bounded_digits m e Hb) as (Hd & _ & _ & _).
  pose proof (digits2_pos_bounds m) as [_ Hhi].
  assert (Hm : (Zpos m < 2 ^ 53)%Z).
  { eapply Z.lt_le_trans; [exact Hhi|]. apply Z.pow_le_mono_r; lia. }
  unfold value.
  destruct (geb_1024_false m e Hg) as [He | [He Hm']].
  - apply Qlt_le_trans with (2 ^ 53 * 2 ^ e).
    + apply Qmult_lt_compat_r; [apply pow2_pos|].
      change (2 ^ 53) with (inject_Z (2 ^ 53)). rewrite <- Zlt_Qlt. exact Hm.
    + rewrite <- Qpower_plus by exact two_neq_0.
      change 1024 with (2 ^ 10). apply Qpower_le_compat_l; [lia | discriminate].
  - subst e. apply Qlt_le_trans with (2 ^ 52 * 2 ^ (-42)).
    + apply Qmult_lt_compat_r; [apply pow2_pos|].
      change (2 ^ 52) with (inject_Z (2 ^ 52)). rewrite <- Zlt_Qlt. exact Hm'.
    + apply Qle_lteq. right. reflexivity.
Qed.

End NumberFacts.

(** ** Docker statistics *)

Module StatsProofs.
Import JSNumber DockerStats NumberFacts.

Local Open Scope Q_scope.

Lemma pow1024_succ (k : nat) : 1024 ^ Z.of_nat (S k) == 1024 * 1024 ^ Z.of_nat k.
Proof.
  rewrite Nat2Z.inj_succ. unfold Z.succ. rewrite Qpower_plus by discriminate.
  change (1024 ^ 1) with 1024. ring.
Qed.

Lemma pow1024_pos (k : nat) : 0 < 1024 ^ Z.of_nat k.
Proof. apply Qpower_0_lt. reflexivity. Qed.

Lemma scaled_0 (x : number) : scaled x 0 == JSNumber.value x.
Proof. unfold scaled. change (1024 ^ Z.of_nat 0) with 1. field. Qed.

Lemma scaled_succ (x y : number) (k : nat) :
  JSNumber.value y == JSNumber.value x / 1024 -> scaled y k == scaled x (S k).
Proof.
  intros H. unfold scaled. rewrite H, pow1024_succ.
  assert (Hp : ~ 1024 ^ Z.of_nat k == 0).
  { intros H0. pose proof (pow1024_pos k) as Hp. rewrite H0 in Hp. discriminate. }
  field. exact Hp.
Qed.

Lemma divided_succ (x : number) (k : nat) :
  divided (div x (ofZ 1024)) k = divided x (S k).
Proof. unfold divided. rewrite Nat.iter_succ_r. reflexivity. Qed.

Lemma loop_stop (size : number) (idx : nat) :
  (idx <= 4)%nat -> ((idx < 4)%nat -> JSNumber.value size < 1024) ->
  loop_post size idx (size, idx).
Proof.
  intros Hidx Hlt. exists 0%nat. cbn [divided Nat.iter]. rewrite Nat.add_0_r.
  split; [reflexivity |]. split; [exact Hidx |]. split; [| split].
  - symmetry. apply scaled_0.
  - intros j Hj. inversion Hj.
  - intros Hk. rewrite scaled_0. auto.
Qed.

(** The loop stops for the condition, never for lack of fuel, and what it
    returns is described by [loop_post]. *)
Lemma formatBytes_loop_spec (fuel : nat) :
  forall (size : number) (idx : nat),
    valid size = true -> nonNegative size = true ->
    (4 <= idx + fuel)%nat -> (idx <= 4)%nat ->
    loop_post size idx (formatBytes_loop fuel size idx).
Proof.
  induction fuel as [| fuel IH]; intros size idx Hv Hn Hfuel Hidx.
  - apply loop_stop; [exact Hidx | intros; lia].
  - cbn [formatBytes_loop]. change (length units - 1)%nat with 4%nat.
    destruct (geb size (ofZ 1024)) eqn:Hg; cbn [andb].
    + destruct (Nat.ltb_spec idx 4) as [Hlt | Hge].
      * destruct size as [s | s | | s m e]; try discriminate.
        destruct s; [discriminate |].
        destruct (div_1024_exact m e Hv Hg) as [Hdiv Hb].
        assert (Hstep : JSNumber.value (div (S754_finite false m e) (ofZ 1024))
                        == JSNumber.value (S754_finite false m e) / 1024).
        { rewrite Hdiv. apply value_scale. }
        destruct (IH (div (S754_finite false m e) (ofZ 1024)) (S idx)) as (d & Hl & Hd & Hval & Hprev & Hlast).
        { rewrite Hdiv. exact Hb. }
        { rewrite Hdiv. reflexivity. }
        { lia. }
        { lia. }
        exists (S d). rewrite Hl, divided_succ.
        split; [f_equal; lia |]. split; [lia |]. split; [| split].
        -- rewrite <- divided_succ, Hval. apply scaled_succ, Hstep.
        -- intros [| j] Hj.
           ++ rewrite scaled_0. apply value_ge_1024; assumption.
           ++ rewrite <- (scaled_succ _ _ _ Hstep). apply Hprev. lia.
        -- intros Hk. rewrite <- (scaled_succ _ _ _ Hstep). apply Hlast. lia.
      * apply loop_stop; [exact Hidx | intros; lia].
    + apply loop_stop; [exact Hidx |]. intros _.
      destruct size as [s | s | | s m e]; try discriminate.
      * reflexivity.
      * destruct s; [discriminate |]. apply value_lt_1024; assumption.
Qed.

Local Close Scope Q_scope.

(** C1, as stated, fails.  For 500 bytes the loop stops at the unit B, yet
    every larger unit also scales 500 below 1024 (500 / 1024 in KB): B is
    not the largest unit with a scaled value below 1024. *)
Lemma formatBytes_500_not_largest : ~ choosesLargestUnit (ofZ 500).
Proof.
  unfold choosesLargestUnit.
  change (formatBytes_scale (ofZ 500)) with (ofZ 500, 0%nat).
  intros (_ & _ & H).
  specialize (H 1%nat). 
  assert (Hs : (scaled (ofZ 500) 1 < 1024)%Q) by (vm_compute; reflexivity).
  specialize (H ltac:(lia) Hs). lia.
Qed.

(** C1, amended.  For every byte count [bytes >= 0], [formatBytes] divides
    by 1024 exactly [k] times, where [k] is the index of the smallest unit
    of the ladder B, KB, MB, GB, TB whose scaled value is below 1024, and
    the index of TB when there is none: every smaller unit has a scaled
    value of 1024 or more, the value left is [bytes / 1024^k] without any
    rounding, it is below 1024 unless [k] is the top unit, and the result
    is that value printed by [toFixed(2)] followed by the name of the
    unit. *)
Theorem formatBytes_smallest_unit (exponentNotation : number -> string) (bytes : number) :
  valid bytes = true -> nonNegative bytes = true ->
  exists k : nat,
    (k <= 4)%nat
    /\ formatBytes_scale bytes = (divided bytes k, k)
    /\ (JSNumber.value (divided bytes k) == scaled bytes k)%Q
    /\ (forall j : nat, (j < k)%nat -> (1024 <= scaled bytes j)%Q)
    /\ ((k < 4)%nat -> (scaled bytes k < 1024)%Q)
    /\ formatBytes exponentNotation bytes
       = toFixed2 exponentNotation (divided bytes k) ++ nth k units "".
Proof.
  intros Hv Hn.
  destruct (formatBytes_loop_spec (length units) bytes 0 Hv Hn) as (k & Hl & Hk & Hval & Hprev & Hlast).
  { cbn. lia. }
  { lia. }
  cbn [Nat.add] in *. fold (formatBytes_scale bytes) in Hl.
  exists k. repeat (split; [assumption |]).
  unfold formatBytes. rewrite Hl.
  destruct k as [| [| [| [| [| k]]]]]; try reflexivity. lia.
Qed.

(** 1536 bytes are a byte count in this sense. *)
Lemma formatBytes_smallest_unit_witness :
  exists k : nat,
    (k <= 4)%nat
    /\ formatBytes_scale (ofZ 1536) = (divided (ofZ 1536) k, k)
    /\ (JSNumber.value (divided (ofZ 1536) k) == scaled (ofZ 1536) k)%Q
    /\ (forall j : nat, (j < k)%nat -> (1024 <= scaled (ofZ 1536) j)%Q)
    /\ ((k < 4)%nat -> (scaled (ofZ 1536) k < 1024)%Q)
    /\ formatBytes (fun _ => "") (ofZ 1536)
       = toFixed2 (fun _ => "") (divided (ofZ 1536) k) ++ nth k units "".
Proof.
  apply (formatBytes_smallest_unit (fun _ => "") (ofZ 1536)); reflexivity.
Defined.

Example formatBytes_1536 : formatBytes (fun _ => "") (ofZ 1536) = "1.50KB".
Proof. vm_compute. reflexivity. Qed.

Lemma div_by_zero_not_finite (x : number) (s : bool) :
  isFinite (div x (S754_zero s)) = false.
Proof. destruct x as [sx | sx | | sx mx ex]; reflexivity. Qed.


(** Infinities and NaN stay infinite or NaN under multiplication. *)
Lemma mul_not_finite (x y : number) :
  isFinite x = false -> isFinite (mul x y) = false.
Proof.
  destruct x as [sx | sx | | sx mx ex]; try discriminate; intros _;
    destruct y as [sy | sy | | sy my ey]; reflexivity.
Qed.



Lemma not_finite_toFixed2 (exponentNotation : number -> string) (x : number) :
  isFinite x = false ->
  toFixed2 exponentNotation x = "NaN" \/ toFixed2 exponentNotation x = "Infinity"
  \/ toFixed2 exponentNotation x = "-Infinity".
Proof.
  destruct x as [s | s | | s m e]; try discriminate; intros _.
  - destruct s; auto.
  - auto.
Qed.


(** C2.  For every statistics sample [calculateCPUPercentage] is
    [(cpuDelta / systemDelta) * onlineCPUs * 100] in binary64 arithmetic,
    with [cpuDelta] and [systemDelta] the differences of the current and
    the previous counters.  For a sample with [cpuDelta = 200],
    [systemDelta = 1000] and 4 online CPUs the result is the number 80 and
    the entry shows ["80.00%"]. *)
Theorem calculateCPUPercentage_formula (stats : Stats) :
  calculateCPUPercentage stats
  = mul (mul (div (sub (total_usage (cpu_usage (cpu_stats stats)))
                       (total_usage (cpu_usage (precpu_stats stats))))
                  (sub (system_cpu_usage (cpu_stats stats))
                       (system_cpu_usage (precpu_stats stats))))
             (online_cpus (cpu_stats stats)))
        (ofZ 100)
  /\ (cpuDelta stats = ofZ 200 -> systemDelta stats = ofZ 1000 ->
      online_cpus (cpu_stats stats) = ofZ 4 ->
      calculateCPUPercentage stats = ofZ 80
      /\ forall exponentNotation,
           toFixed2 exponentNotation (calculateCPUPercentage stats) ++ "%" = "80.00%").
Proof.
  split; [reflexivity |].
  intros Hc Hs Ho. unfold calculateCPUPercentage. rewrite Hc, Hs, Ho.
  split; [vm_compute; reflexivity | intros exponentNotation; vm_compute; reflexivity].
Qed.

(** The counters 1200 and 1000 out of 5000 and 4000 on 4 CPUs give such a
    sample. *)
Lemma calculateCPUPercentage_formula_witness :
  calculateCPUPercentage sampleStats = ofZ 80
  /\ forall exponentNotation,
       toFixed2 exponentNotation (calculateCPUPercentage sampleStats) ++ "%" = "80.00%".
Proof.
  apply (proj2 (calculateCPUPercentage_formula sampleStats)); reflexivity.
Defined.



Example stalled_cpu_string :
  getStats (fun _ => "") (oneContainer stalledStats)
  = inr [{| name := "web"; cpu := "Infinity%";
            memory := "117.74MB / 8.00GB (1.44%)";
            network := "↓1.46KB / ↑2.02KB";
            disk := "↓100.00B / ↑5.00B" |}].
Proof. vm_compute. reflexivity. Qed.

Lemma fold_add_map {A : Type} (f : A -> number) (l : list A) (acc : number) :
  fold_left (fun acc x => add acc (f x)) l acc = fold_left add (map f l) acc.
Proof.
  revert acc. induction l as [| x l IH]; intros acc; [reflexivity |].
  cbn [map fold_left]. apply IH.
Qed.

(** The network figures are sums over all interfaces of the sample. *)
Lemma network_sums (stats : Stats) :
  networkRx stats = fold_left add (map rx_bytes (networkValues stats)) (ofZ 0)
  /\ networkTx stats = fold_left add (map tx_bytes (networkValues stats)) (ofZ 0).
Proof. split; apply fold_add_map. Qed.

(** C3, at a sample with two devices.  The network figures are sums over
    all interfaces, but [formatBlockIO] reads the first entry of each
    operation only: with read counters 100 and 200 and write counters 5 and
    7 it reports 100 and 5 where the sums over the devices are 300 and 12. *)
Theorem blockIO_takes_first_entry :
  blockRead sampleStats = ofZ 100 /\ blockSum "Read" sampleStats = ofZ 300
  /\ blockWrite sampleStats = ofZ 5 /\ blockSum "Write" sampleStats = ofZ 12
  /\ formatBlockIO (fun _ => "") sampleStats = "↓100.00B / ↑5.00B".
Proof. vm_compute. repeat split; reflexivity. Qed.

End StatsProofs.

(** ** System information *)

Module InfoProofs.
Import SystemInfo.

Lemma basicInfo_dom {Error : Type} (si : Provider Error) (cpu : Cpu.t) (mem : Mem.t) (os : Os.t) :
  dom (basicInfo si cpu mem os) = basicKeys.
Proof.
  unfold basicInfo, basicKeys. rewrite dom_list_to_map_L. cbn [fmap list_fmap fst].
  apply set_eq. intros k. cbn [list_to_set]. rewrite !elem_of_union, elem_of_empty. tauto.
Qed.

Lemma detailedInfo_dom (basic : gmap string value) (system : Sys.t) (load : Load.t)
    (services : list Service.t) (dockerInfo : DockerInfo.t) :
  dom (detailedInfo basic system load services dockerInfo) = dom basic ∪ detailedKeys.
Proof.
  unfold detailedInfo, detailedKeys. rewrite !dom_insert_L.
  apply set_eq. intros k. rewrite !elem_of_union. tauto.
Qed.

Lemma basic_detailed_disjoint (k : string) : k ∈ detailedKeys -> k ∉ basicKeys.
Proof.
  unfold detailedKeys, basicKeys. intros Hk Hb.
  repeat (apply elem_of_union in Hk as [Hk | Hk]); apply elem_of_singleton in Hk; subst k;
    repeat (apply elem_of_union in Hb as [Hb | Hb]); apply elem_of_singleton in Hb;
    discriminate.
Qed.

(** C4.  For every request to [GET /info] whose [detailed] flag parses to
    [detailed]: an answer always carries the basic keys; with
    [detailed = false] it carries exactly those, and none of [system],
    [load], [services], [docker]; with [detailed = true] it carries those
    four keys as well.  The handler does answer whenever the queries it
    issues resolve. *)
Theorem info_keys_follow_detailed (Error : Type) (si : Provider Error)
    (query : gmap string QueryValue) (detailed : bool) :
  parseDetailed (Error := Error) query = inr detailed ->
  (forall response : gmap string value,
     getInfo si query = inr response ->
     basicKeys ⊆ dom response
     /\ (detailed = false ->
         dom response = basicKeys /\ forall k, k ∈ detailedKeys -> response !! k = None)
     /\ (detailed = true ->
         dom response = basicKeys ∪ detailedKeys
         /\ forall k, k ∈ detailedKeys -> is_Some (response !! k)))
  /\ (resolved (si_cpu si) -> resolved (si_mem si) -> resolved (si_osInfo si) ->
      resolved (si_system si) ->
      (detailed = true ->
       resolved (si_currentLoad si) /\ resolved (si_services si)
       /\ resolved (si_dockerInfo si)) ->
      exists response, getInfo si query = inr response).
Proof.
  intros Hp. unfold getInfo. rewrite Hp. split.
  - intros response H.
    destruct (si_cpu si) as [e | cpu]; [discriminate |].
    destruct (si_mem si) as [e | mem]; [discriminate |].
    destruct (si_osInfo si) as [e | os]; [discriminate |].
    destruct (si_system si) as [e | system]; [discriminate |].
    destruct detailed; cbn [negb] in H.
    + destruct (si_currentLoad si) as [e | load]; [discriminate |].
      destruct (si_services si) as [e | services]; [discriminate |].
      destruct (si_dockerInfo si) as [e | dockerInfo]; [discriminate |].
      injection H as <-.
      pose proof (detailedInfo_dom (basicInfo si cpu mem os) system load services dockerInfo) as Hd.
      rewrite basicInfo_dom in Hd.
      split; [rewrite Hd; apply union_subseteq_l |].
      split; [discriminate |]. intros _. split; [exact Hd |].
      intros k Hk. apply elem_of_dom. rewrite Hd. apply elem_of_union. right. exact Hk.
    + injection H as <-.
      pose proof (basicInfo_dom si cpu mem os) as Hd.
      split; [rewrite Hd; reflexivity |].
      split; [| discriminate]. intros _. split; [exact Hd |].
      intros k Hk. apply not_elem_of_dom. rewrite Hd. apply basic_detailed_disjoint, Hk.
  - intros [cpu ->] [mem ->] [os ->] [system ->] Hd.
    destruct detailed; cbn [negb]; [| eexists; reflexivity].
    destruct (Hd eq_refl) as ([load ->] & [services ->] & [dockerInfo ->]).
    eexists. reflexivity.
Qed.

(** A host whose queries all resolve, asked with [?detailed=true]. *)
Lemma info_keys_follow_detailed_witness :
  exists response : gmap string value,
    getInfo sampleProvider detailedQuery = inr response
    /\ dom response = basicKeys ∪ detailedKeys.
Proof.
  destruct (info_keys_follow_detailed unit sampleProvider detailedQuery true eq_refl)
    as [Hkeys Hanswer].
  destruct Hanswer as [response Hr]; try (eexists; reflexivity).
  { intros _. repeat split; eexists; reflexivity. }
  exists response. split; [exact Hr |].
  destruct (Hkeys response Hr) as (_ & _ & Hd). apply (Hd eq_refl).
Defined.

End InfoProofs.

(** ** Log retrieval *)

Module LogsProofs.
Import Logs.

(** C5.  For every outcome of the two commands: when [journalctl] succeeds
    its output is returned and [tail] is not run; when it fails and [tail]
    succeeds, the output of [tail] is returned; when both fail the sentinel
    is returned; and the [return] of the sentinel is reached if and only if
    both fail.  The answer is always the output of one source or the
    sentinel, never a combination. *)
Theorem logs_first_source_wins (Error : Type) (execAsync : string -> Error + ExecOutput) :
  (forall out, execAsync journalCommand = inr out ->
     getLogsReply Error execAsync = ([journalCommand], FromJournal out)
     /\ getLogs Error execAsync = {| logs := stdout out |})
  /\ (forall out, failed Error execAsync journalCommand -> execAsync fileCommand = inr out ->
     getLogsReply Error execAsync = ([journalCommand; fileCommand], FromFile out)
     /\ getLogs Error execAsync = {| logs := stdout out |})
  /\ (failed Error execAsync journalCommand /\ failed Error execAsync fileCommand ->
     getLogs Error execAsync = {| logs := sentinel |})
  /\ (snd (getLogsReply Error execAsync) = NoLogs <->
      failed Error execAsync journalCommand /\ failed Error execAsync fileCommand).
Proof.
  unfold getLogs, getLogsReply, failed.
  split; [| split; [| split]].
  - intros out ->. split; reflexivity.
  - intros out [e ->] ->. split; reflexivity.
  - intros [[e1 ->] [e2 ->]]. reflexivity.
  - destruct (execAsync journalCommand) as [e1 | o1].
    + destruct (execAsync fileCommand) as [e2 | o2]; cbn [snd].
      * split; [intros _; split; eexists; reflexivity | reflexivity].
      * split; [discriminate | intros [_ [e He]]; discriminate].
    + cbn [snd]. split; [discriminate | intros [[e He] _]; discriminate].
Qed.

(** A host with a journal, and a host with neither source. *)
Lemma logs_first_source_wins_witness :
  getLogs unit journalOnly = {| logs := "Nov 02 host systemd[1]: Started." |}
  /\ getLogs unit noSource = {| logs := sentinel |}.
Proof.
  split.
  - apply (proj1 (logs_first_source_wins unit journalOnly)
             {| stdout := "Nov 02 host systemd[1]: Started."; stderr := "" |}).
    reflexivity.
  - apply (proj1 (proj2 (proj2 (logs_first_source_wins unit noSource)))).
    split; exists tt; reflexivity.
Defined.

End LogsProofs.

(** ** Performance test *)

Module PerformanceProofs.
Import JSNumber Performance PerformanceCases.

Lemma prefix_app (a s : string) :
  String.prefix a s = true -> exists post, s = a ++ post.
Proof.
  revert s. induction a as [| c a IH]; intros s H.
  - exists s. reflexivity.
  - destruct s as [| d s]; [discriminate |]. cbn in H.
    destruct (ascii_dec c d) as [-> | Hne]; [| discriminate].
    destruct (IH s H) as [post ->]. exists post. reflexivity.
Qed.

Lemma append_cons (c : ascii) (a post : string) :
  String c a ++ post = String c (a ++ post).
Proof. reflexivity. Qed.

Lemma append_nil (post : string) : EmptyString ++ post = post.
Proof. reflexivity. Qed.

Lemma app_prefix (a post : string) : String.prefix a (a ++ post) = true.
Proof.
  induction a as [| c a IH]; [destruct post; reflexivity |].
  rewrite append_cons. cbn [String.prefix].
  destruct (ascii_dec c c) as [_ | Hne]; [exact IH | contradiction].
Qed.

Lemma allClass_cons (c : ascii) (g : string) :
  allClass (String c g) <-> classChar c = true /\ allClass g.
Proof. unfold allClass. cbn. apply Forall_cons_iff. Qed.

Lemma allClass_nil : allClass EmptyString.
Proof. constructor. Qed.

Lemma matchHere_sound (s : string) :
  forall g, matchHere s = Some g ->
    g <> EmptyString /\ allClass g /\ exists post, s = g ++ literal ++ post.
Proof.
  induction s as [| c s IH]; intros g H; [discriminate |].
  cbn [matchHere] in H. destruct (classChar c) eqn:Hc; [| discriminate].
  destruct (matchHere s) as [g' |] eqn:Hm.
  - injection H as <-. destruct (IH g' eq_refl) as (_ & Hall & post & ->).
    split; [discriminate |]. split; [apply allClass_cons; auto |].
    exists post. reflexivity.
  - destruct (String.prefix literal s) eqn:Hp; [| discriminate].
    injection H as <-. destruct (prefix_app _ _ Hp) as [post ->].
    split; [discriminate |]. split; [apply allClass_cons; split; [exact Hc | apply allClass_nil] |].
    exists post. reflexivity.
Qed.




(** A match does not start at the literal. *)
Lemma literal_no_match (post : string) : matchHere (literal ++ post) = None.
Proof. reflexivity. Qed.

(** A run of class characters before the literal is matched whole. *)
Lemma matchHere_exact (g : string) :
  forall post, g <> EmptyString -> allClass g ->
    matchHere (g ++ literal ++ post) = Some g.
Proof.
  induction g as [| c g IH]; intros post Hne Hall; [contradiction |].
  apply allClass_cons in Hall as [Hc Hall].
  rewrite append_cons. cbn [matchHere]. rewrite Hc.
  destruct g as [| d g].
  - rewrite append_nil, literal_no_match, app_prefix. reflexivity.
  - rewrite (IH post); [reflexivity | discriminate | exact Hall].
Qed.

(** [sameNumber] decides equality. *)
Lemma sameNumber_eq (x y : number) : sameNumber x y = true -> x = y.
Proof.
  destruct x as [s | s | | s m e], y as [s' | s' | | s' m' e']; cbn; try discriminate;
    try reflexivity.
  - intros H. apply Bool.eqb_prop in H. congruence.
  - intros H. apply Bool.eqb_prop in H. congruence.
  - intros H. apply andb_prop in H as [H He]. apply andb_prop in H as [Hs Hm].
    apply Bool.eqb_prop in Hs. apply Pos.eqb_eq in Hm. apply Z.eqb_eq in He. congruence.
Qed.



(** The leftmost occurrence is the one captured. *)
Lemma leftmost_matchThroughput (s g : string) :
  LeftmostCapture s g -> matchThroughput s = Some g.
Proof.
  intros (pre & post & -> & Hne & Hall & Hleft).
  induction pre as [| c pre IH].
  - rewrite append_nil. pose proof (matchHere_exact g post Hne Hall) as Hm.
    destruct (g ++ literal ++ post); cbn [matchThroughput]; rewrite Hm; reflexivity.
  - rewrite append_cons. cbn [matchThroughput].
    destruct (matchHere (String c (pre ++ g ++ literal ++ post))) as [g' |] eqn:Hm.
    + exfalso. apply (Hleft EmptyString (String c pre)); [reflexivity | discriminate |].
      destruct (matchHere_sound _ _ Hm) as (Hne' & Hall' & post' & Hs).
      exists g', post'. rewrite append_cons. auto.
    + apply IH. intros pre1 pre2 Hp Hp2.
      apply (Hleft (String c pre1) pre2); [rewrite Hp; reflexivity | exact Hp2].
Qed.





(** A later part of the run is not what is captured. *)
Example last_digit_not_captured : ~ LeftmostCapture ddFast "8".
Proof.
  intros H. apply leftmost_matchThroughput in H. vm_compute in H. discriminate H.
Qed.

Example throughput_ddFast : throughput ddFast = S754_finite false 7205759403792794 (-39).
Proof. vm_compute. reflexivity. Qed.

End PerformanceProofs.

(** ** Containers and images *)

Module RoutesProofs.
Import DockerRoutes.

Lemma string_length_append (s t : string) :
  String.length (s ++ t) = (String.length s + String.length t)%nat.
Proof. induction s as [| c s IH]; [reflexivity | simpl; f_equal; exact IH]. Qed.

Lemma append_cancel_r (s1 s2 t : string) : s1 ++ t = s2 ++ t -> s1 = s2.
Proof.
  revert s2. induction s1 as [| c s1 IH]; intros [| d s2] H.
  - reflexivity.
  - apply (f_equal String.length) in H. rewrite !string_length_append in H. cbn in H. lia.
  - apply (f_equal String.length) in H. rewrite !string_length_append in H. cbn in H. lia.
  - cbn in H. injection H as -> H. f_equal. apply IH, H.
Qed.

(** Different integers have different numerals. *)
Lemma numeral_inj (a b : Z) : numeral a = numeral b -> a = b.
Proof.
  unfold numeral. intros H.
  apply DecimalZ.to_int_inj.
  assert (Hnn : forall z, Z.to_int z <> Decimal.Pos Decimal.Nil
                          /\ Z.to_int z <> Decimal.Neg Decimal.Nil).
  { intros [| p | p]; cbn; split; try discriminate;
      intros [= Hp]; exact (DecimalPos.Unsigned.to_uint_nonnil p Hp). }
  apply (f_equal NilZero.int_of_string) in H.
  rewrite !NilZero.isi in H by apply Hnn.
  injection H as H. exact H.
Qed.

(** An integer of magnitude below 2^53 prints as its decimal numeral. *)
Lemma toString_integer (otherNotation : JSNumber.number -> string) (x : JSNumber.number)
    (n : Z) :
  integerValue x = Some n -> (Z.abs n < maxSafe)%Z -> toString otherNotation x = numeral n.
Proof.
  intros Hx Hn. apply Z.ltb_lt in Hn.
  destruct x as [s | s | | s m e]; try discriminate Hx; unfold toString; rewrite Hx, Hn;
    reflexivity.
Qed.

Section Ports.

Variable otherNotation : JSNumber.number -> string.

(** Entries for other keys leave a key as it is. *)
Lemma addPort_later (post : list Port.t) :
  forall (acc : gmap string unit * gmap string (list PortBinding)) (k : string),
    (forall q, In q post -> portStr otherNotation q <> k) ->
    fst (fold_left (addPort otherNotation) post acc) !! k = fst acc !! k
    /\ snd (fold_left (addPort otherNotation) post acc) !! k = snd acc !! k.
Proof.
  induction post as [| q post IH]; intros acc k Hk; [split; reflexivity |].
  cbn [fold_left].
  destruct (IH (addPort otherNotation acc q) k) as [H1 H2].
  { intros q' Hq'. apply Hk. right. exact Hq'. }
  rewrite H1, H2. unfold addPort. cbn [fst snd].
  assert (Hne : portStr otherNotation q <> k) by (apply Hk; left; reflexivity).
  split; apply lookup_insert_ne, Hne.
Qed.

Lemma exposed_every_port (l : list Port.t) :
  forall (acc : gmap string unit * gmap string (list PortBinding)) (p : Port.t),
    In p l ->
    fst (fold_left (addPort otherNotation) l acc) !! portStr otherNotation p = Some tt
    /\ exists h, snd (fold_left (addPort otherNotation) l acc) !! portStr otherNotation p
                 = Some [{| HostPort := h |}].
Proof.
  induction l as [| q l IH]; intros acc p Hin; [destruct Hin |].
  cbn [fold_left].
  destruct (in_dec String.string_dec (portStr otherNotation p) (map (portStr otherNotation) l))
    as [Hl | Hl].
  - apply in_map_iff in Hl as (p' & Hp' & Hin').
    rewrite <- Hp'. apply IH, Hin'.
  - destruct Hin as [-> | Hin].
    + destruct (addPort_later l (addPort otherNotation acc p) (portStr otherNotation p))
        as [H1 H2].
      { intros q Hq Heq. apply Hl. rewrite <- Heq. apply in_map, Hq. }
      rewrite H1, H2. unfold addPort. cbn [fst snd].
      rewrite !lookup_insert_eq. eauto.
    + apply IH, Hin.
Qed.

(** The binding of a key is that of the last entry with this key. *)
Lemma bound_to_last (pre post : list Port.t) (p : Port.t) :
  (forall q, In q post -> portStr otherNotation q <> portStr otherNotation p) ->
  snd (fold_left (addPort otherNotation) (pre ++ p :: post) (∅, ∅)) !! portStr otherNotation p
  = Some [{| HostPort := toString otherNotation (Port.host p) |}].
Proof.
  intros Hlast. rewrite fold_left_app. cbn [fold_left].
  destruct (addPort_later post
              (addPort otherNotation (fold_left (addPort otherNotation) pre (∅, ∅)) p)
              (portStr otherNotation p) Hlast) as [_ H2].
  rewrite H2. unfold addPort. cbn [snd]. apply lookup_insert_eq.
Qed.

End Ports.

(** C7, amended.  For every container-creation request with a ports list:
    for each entry [{container: c, host: h}] the key ["<c>/tcp"], with [c]
    as JavaScript prints it, maps to an exposed-ports entry and to one port
    binding; the [HostPort] of that binding is [h] as JavaScript prints it
    whenever no later entry of the list has a container port that prints
    as [c] does (the binding of the last such entry is the one kept).  When
    [c] and [h] are integers of magnitude below 2^53 the two texts are
    their decimal numerals.  In particular
    [[{container: 80, host: 8080}]] maps ["80/tcp"] to host port
    ["8080"]. *)
Theorem ports_bind_last_entry (otherNotation : JSNumber.number -> string)
    (spec : ContainerSpec) (l : list Port.t) :
  ports spec = Some l ->
  (forall p, In p l ->
     exposedPorts otherNotation spec !! (toString otherNotation (Port.container p) ++ "/tcp")
     = Some tt
     /\ exists h,
          portBindings otherNotation spec
            !! (toString otherNotation (Port.container p) ++ "/tcp")
          = Some [{| HostPort := h |}])
  /\ (forall pre p post,
        l = (pre ++ p :: post)%list ->
        (forall q, In q post ->
           toString otherNotation (Port.container q)
           <> toString otherNotation (Port.container p)) ->
        portBindings otherNotation spec
          !! (toString otherNotation (Port.container p) ++ "/tcp")
        = Some [{| HostPort := toString otherNotation (Port.host p) |}])
  /\ (forall pre p post c h,
        l = (pre ++ p :: post)%list ->
        integerValue (Port.container p) = Some c -> (Z.abs c < maxSafe)%Z ->
        integerValue (Port.host p) = Some h -> (Z.abs h < maxSafe)%Z ->
        (forall q, In q post -> toString otherNotation (Port.container q) <> numeral c) ->
        exposedPorts otherNotation spec !! (numeral c ++ "/tcp") = Some tt
        /\ portBindings otherNotation spec !! (numeral c ++ "/tcp")
           = Some [{| HostPort := numeral h |}]).
Proof.
  intros Hp. unfold exposedPorts, portBindings, portMaps. rewrite Hp.
  assert (Hlast : forall pre p post,
             l = (pre ++ p :: post)%list ->
             (forall q, In q post ->
                toString otherNotation (Port.container q)
                <> toString otherNotation (Port.container p)) ->
             snd (fold_left (addPort otherNotation) l (∅, ∅))
               !! (toString otherNotation (Port.container p) ++ "/tcp")
             = Some [{| HostPort := toString otherNotation (Port.host p) |}]).
  { intros pre p post -> Hl. apply (bound_to_last otherNotation pre post p).
    intros q Hq Heq. apply (Hl q Hq). unfold portStr in Heq.
    apply (append_cancel_r _ _ _ Heq). }
  split; [| split].
  - intros p Hin. apply (exposed_every_port otherNotation l (∅, ∅) p Hin).
  - exact Hlast.
  - intros pre p post c h Hl Hc Hcb Hh Hhb Hlater.
    rewrite <- (toString_integer otherNotation _ _ Hc Hcb).
    rewrite <- (toString_integer otherNotation _ _ Hh Hhb). split.
    + apply (exposed_every_port otherNotation l (∅, ∅) p). rewrite Hl.
      apply in_or_app. right. left. reflexivity.
    + apply (Hlast pre p post Hl). intros q Hq.
      rewrite (toString_integer otherNotation _ _ Hc Hcb). apply (Hlater q Hq).
Qed.

(** The request of the design document. *)
Lemma ports_bind_last_entry_witness :
  exposedPorts (fun _ => "") (webSpec [port 80 8080]) !! "80/tcp" = Some tt
  /\ portBindings (fun _ => "") (webSpec [port 80 8080]) !! "80/tcp"
     = Some [{| HostPort := "8080" |}].
Proof.
  apply (proj2 (proj2 (ports_bind_last_entry (fun _ => "") (webSpec [port 80 8080])
                         [port 80 8080] eq_refl))
           [] (port 80 8080) [] 80 8080); try reflexivity.
  intros q [].
Defined.

(** C7, as stated, fails.  With the ports
    [[{container: 80, host: 8080}, {container: 80, host: 9090}]] the second
    turn of [forEach] overwrites the binding of ["80/tcp"]: the first entry
    is not bound to ["8080"]. *)
Lemma repeated_container_port_not_bound : ~ bindsEveryPort (fun _ => "") twiceSpec.
Proof.
  intros H.
  destruct (H _ (port 80 8080) eq_refl) as [_ Hb].
  { left. reflexivity. }
  vm_compute in Hb. discriminate Hb.
Qed.

Example twice_bound_to_second :
  portBindings (fun _ => "") twiceSpec !! "80/tcp" = Some [{| HostPort := "9090" |}].
Proof. vm_compute. reflexivity. Qed.

(** Past 2^53 the text of a port is the engine's: the model does not print
    a numeral there. *)
Example large_port_text (otherNotation : JSNumber.number -> string) :
  toString otherNotation (JSNumber.ofZ (10 ^ 21)) = otherNotation (JSNumber.ofZ (10 ^ 21)).
Proof. reflexivity. Qed.

(** C9.  Two requests to [DELETE /containers/:id], or to
    [DELETE /images/:id], that differ at most in the parameter [force] send
    the same call to the Docker Engine and get the same answer, and every
    call sent has [force] set to [false]. *)
Theorem remove_ignores_force (Error : Type) (docker : DockerCall -> option Error)
    (params1 params2 : gmap string string) :
  (forall k : string, k <> "force" -> params1 !! k = params2 !! k) ->
  deleteContainer Error docker params1 = deleteContainer Error docker params2
  /\ deleteImage Error docker params1 = deleteImage Error docker params2
  /\ Forall (fun c => callForce c = false) (fst (deleteContainer Error docker params1))
  /\ Forall (fun c => callForce c = false) (fst (deleteImage Error docker params1)).
Proof.
  intros Hsame.
  assert (Hid : params1 !! "id" = params2 !! "id") by (apply Hsame; discriminate).
  unfold deleteContainer, deleteImage, removeWith, parseRemoveParams. rewrite <- Hid.
  destruct (params1 !! "id") as [id |]; cbn [fst].
  - repeat split.
    + destruct (docker (ContainerRemove id false)); repeat constructor.
    + destruct (docker (ImageRemove id false)); repeat constructor.
  - repeat split; constructor.
Qed.

(** A request with [force=true] and the same request without it. *)
Lemma remove_ignores_force_witness :
  deleteContainer unit (fun _ => None) forcedParams
  = deleteContainer unit (fun _ => None) plainParams
  /\ deleteImage unit (fun _ => None) forcedParams
     = deleteImage unit (fun _ => None) plainParams.
Proof.
  destruct (remove_ignores_force unit (fun _ => None) forcedParams plainParams)
    as (H1 & H2 & _).
  - intros k Hk. unfold forcedParams. apply lookup_insert_ne. congruence.
  - split; assumption.
Defined.

Example forced_remove_call :
  deleteContainer unit (fun _ => None) forcedParams
  = ([ContainerRemove "4f1c" false], inr {| status := "removed" |}).
Proof. vm_compute. reflexivity. Qed.

End RoutesProofs.

(** ** ISO builder *)

Module IsoProofs.
Import IsoBuilder IsoReference.

Section Steps.
Variable World Error : Type.
Variable commands : Step -> World -> World * option Error.
Variable listing : World -> World * option Error.

(** A step function either reports success or reports failure and throws. *)
Lemma step_cases (s : Step) (p : Process World) :
  (exists w,
      step World Error commands s p
      = (inr tt, {| world := w; events := (events World p ++ success s)%list |}))
  \/ (exists w e,
        step World Error commands s p
        = (inl e, {| world := w; events := (events World p ++ failure s)%list |})).
Proof.
  unfold step, guarded, bind, tryCatch, run, exec, emit, throw, success, failure. cbn.
  destruct (commands s (world World p)) as [w [e |]]; cbn; rewrite <- app_assoc; eauto.
Qed.

Lemma setupBuildEnvironment_cases (p : Process World) :
  (exists w,
      setupBuildEnvironment World Error commands listing p
      = (inr tt, {| world := w;
                    events := (events World p ++ success SetupBuildEnvironment)%list |}))
  \/ (exists w e fevs,
        setupBuildEnvironment World Error commands listing p
        = (inl e, {| world := w; events := (events World p ++ fevs)%list |})
        /\ failureTrace SetupBuildEnvironment fevs).
Proof.
  unfold setupBuildEnvironment, guarded, bind, tryCatch, run, exec, emit, throw, success,
    failureTrace, failure, lateFailure. cbn.
  destruct (commands SetupBuildEnvironment (world World p)) as [w [e |]]; cbn.
  - right. exists w, e, [Started SetupBuildEnvironment; Failed SetupBuildEnvironment].
    rewrite <- app_assoc. auto.
  - destruct (listing w) as [w' [e |]]; cbn.
    + right. exists w', e,
        [Started SetupBuildEnvironment; Succeeded SetupBuildEnvironment;
         Failed SetupBuildEnvironment].
      rewrite <- !app_assoc. auto.
    + left. exists w'. rewrite <- app_assoc. reflexivity.
Qed.

Lemma stepFunction_cases (s : Step) (p : Process World) :
  (exists w,
      stepFunction World Error commands listing s p
      = (inr tt, {| world := w; events := (events World p ++ success s)%list |}))
  \/ (exists w e fevs,
        stepFunction World Error commands listing s p
        = (inl e, {| world := w; events := (events World p ++ fevs)%list |})
        /\ failureTrace s fevs).
Proof.
  destruct s; cbn [stepFunction]; try apply setupBuildEnvironment_cases;
    unfold downloadBaseSystem, configureSystem, installPackages, installNestOSComponents,
      createISO;
    match goal with
    | |- context [step World Error commands ?s p] =>
        destruct (step_cases s p) as [[w ->] | (w & e & ->)];
        [left; eauto | right; exists w, e, (failure s); split; [reflexivity | left; reflexivity]]
    end.
Qed.

(** A run of a list of steps either stops at its first failing step, having
    completed the steps before it, or completes them all. *)
Lemma runAll_spec (l : list Step) :
  forall p : Process World,
    (exists done f rest fevs e w,
        l = (done ++ f :: rest)%list
        /\ failureTrace f fevs
        /\ runAll World Error commands listing l p
           = (inl e, {| world := w;
                        events := (events World p ++ flat_map success done ++ fevs)%list |}))
    \/ (exists w,
          runAll World Error commands listing l p
          = (inr tt, {| world := w; events := (events World p ++ flat_map success l)%list |})).
Proof.
  induction l as [| s l IH]; intros p.
  - right. exists (world World p). cbn. rewrite app_nil_r. destruct p; reflexivity.
  - cbn [runAll]. unfold bind.
    destruct (stepFunction_cases s p) as [[w ->] | (w & e & fevs & -> & Hf)].
    + destruct (IH {| world := w; events := (events World p ++ success s)%list |})
        as [(done & f & rest & fevs & e & w' & Hl & Hf & Hr) | (w' & Hr)].
      * left. exists (s :: done), f, rest, fevs, e, w'.
        split; [rewrite Hl; reflexivity |]. split; [exact Hf |].
        rewrite Hr. cbn [events flat_map]. rewrite <- !app_assoc. reflexivity.
      * right. exists w'. rewrite Hr. cbn [events flat_map]. rewrite <- !app_assoc. reflexivity.
    + left. exists [], s, l, fevs, e, w. auto.
Qed.

(** [buildIso] runs the six steps of [pipeline] and turns an error into
    [process.exit(1)]. *)
Lemma buildIso_runAll (p : Process World) :
  buildIso World Error commands listing p
  = match runAll World Error commands listing pipeline p with
    | (inr _, p') => (Returned, p')
    | (inl _, p') => (Exited 1, p')
    end.
Proof.
  unfold buildIso, pipeline. cbn [runAll stepFunction]. unfold bind, ret.
  destruct (setupBuildEnvironment World Error commands listing p) as [[? | []] ?];
    try reflexivity.
  repeat match goal with
         | |- context [?f World Error commands ?q] =>
             destruct (f World Error commands q) as [[? | []] ?]; try reflexivity
         end.
Qed.

(** A step function reports success exactly when its commands succeed. *)
Lemma stepFunction_result (s : Step) (p : Process World) :
  match stepCommands World Error commands listing s (world World p) with
  | (w', None) =>
      stepFunction World Error commands listing s p
      = (inr tt, {| world := w'; events := (events World p ++ success s)%list |})
  | (w', Some e) =>
      exists fevs,
        failureTrace s fevs
        /\ stepFunction World Error commands listing s p
           = (inl e, {| world := w'; events := (events World p ++ fevs)%list |})
  end.
Proof.
  destruct s; cbn [stepFunction];
    unfold setupBuildEnvironment, downloadBaseSystem, configureSystem, installPackages,
      installNestOSComponents, createISO, step, guarded, bind, tryCatch, run, exec, emit,
      throw, stepCommands, failureTrace, failure, lateFailure, success; cbn;
    match goal with
    | |- context [commands ?s (world World p)] =>
        destruct (commands s (world World p)) as [w [e |]]; cbn;
        rewrite <- ?app_assoc; try reflexivity;
        try (eexists; split; [left; reflexivity | reflexivity])
    end.
  destruct (listing w) as [w' [e |]]; cbn; rewrite <- ?app_assoc; [| reflexivity].
  eexists. split; [right; reflexivity | reflexivity].
Qed.

(** When the commands of all steps of a list succeed, all are reported. *)
Lemma runAll_succeeds (l : list Step) :
  forall (p : Process World) (w' : World),
    runCommands World Error commands listing l (world World p) = (w', None) ->
    runAll World Error commands listing l p
    = (inr tt, {| world := w'; events := (events World p ++ flat_map success l)%list |}).
Proof.
  induction l as [| s l IH]; intros p w' H.
  - cbn in H. injection H as <-. cbn. rewrite app_nil_r. destruct p; reflexivity.
  - cbn [runAll runCommands] in *. unfold bind.
    pose proof (stepFunction_result s p) as Hs.
    destruct (stepCommands World Error commands listing s (world World p)) as [w1 [e |]];
      [discriminate H |].
    rewrite Hs, (IH {| world := w1; events := (events World p ++ success s)%list |} w' H).
    cbn [events flat_map]. rewrite <- app_assoc. reflexivity.
Qed.

(** When the commands of [f] are the first to fail, the steps before it
    are reported as succeeded, [f] as failed, and nothing follows. *)
Lemma runAll_fails (done : list Step) (f : Step) (rest : list Step) :
  forall (p : Process World) (w1 w2 : World) (e : Error),
    runCommands World Error commands listing done (world World p) = (w1, None) ->
    stepCommands World Error commands listing f w1 = (w2, Some e) ->
    exists fevs,
      failureTrace f fevs
      /\ runAll World Error commands listing (done ++ f :: rest) p
         = (inl e, {| world := w2;
                      events := (events World p ++ flat_map success done ++ fevs)%list |}).
Proof.
  induction done as [| s done IH]; intros p w1 w2 e Hd Hf.
  - cbn in Hd. injection Hd as <-. cbn [app runAll flat_map]. unfold bind.
    pose proof (stepFunction_result f p) as Hs. rewrite Hf in Hs.
    destruct Hs as (fevs & Ht & ->). exists fevs. split; [exact Ht | reflexivity].
  - cbn [runCommands] in Hd. cbn [app runAll]. unfold bind.
    pose proof (stepFunction_result s p) as Hs.
    destruct (stepCommands World Error commands listing s (world World p)) as [w0 [e0 |]];
      [discriminate Hd |].
    rewrite Hs.
    destruct (IH {| world := w0; events := (events World p ++ success s)%list |} w1 w2 e Hd Hf)
      as (fevs & Ht & ->).
    exists fevs. split; [exact Ht |]. cbn [events flat_map]. rewrite <- !app_assoc. reflexivity.
Qed.

(** Either all commands succeed or there is a first step whose commands
    fail. *)
Lemma runCommands_cases (l : list Step) :
  forall w : World,
    (exists w', runCommands World Error commands listing l w = (w', None))
    \/ (exists done f rest w1 w2 e,
          l = (done ++ f :: rest)%list
          /\ runCommands World Error commands listing done w = (w1, None)
          /\ stepCommands World Error commands listing f w1 = (w2, Some e)).
Proof.
  induction l as [| s l IH]; intros w.
  - left. exists w. reflexivity.
  - cbn [runCommands].
    destruct (stepCommands World Error commands listing s w) as [w0 [e |]] eqn:Hs.
    + right. exists [], s, l, w, w0, e. auto.
    + destruct (IH w0) as [[w' H] | (done & f & rest & w1 & w2 & e & -> & Hd & Hf)].
      * left. exists w'. exact H.
      * right. exists (s :: done), f, rest, w1, w2, e.
        split; [reflexivity |]. split; [| exact Hf]. cbn [runCommands]. rewrite Hs. exact Hd.
Qed.

End Steps.

Ltac split_pipeline H done :=
  cbn in H;
  repeat (destruct done as [| ? done];
          [ injection H as <- <- | cbn in H; injection H as <- H ]);
  try (destruct done; discriminate H).

(** The steps started in two stretches of a log. *)
Lemma started_app (a b : list Event) : started (a ++ b) = (started a ++ started b)%list.
Proof. apply flat_map_app. Qed.

(** Completed steps were started, in order. *)
Lemma started_success (l : list Step) : started (flat_map success l) = l.
Proof. induction l as [| s l IH]; [reflexivity |]. cbn. f_equal. exact IH. Qed.

(** A failing step was started. *)
Lemma started_failureTrace (f : Step) (fevs : list Event) :
  failureTrace f fevs -> started fevs = [f].
Proof. intros [-> | ->]; reflexivity. Qed.

(** A start in the log is a step started. *)
Lemma started_In (s : Step) (evs : list Event) : In (Started s) evs -> In s (started evs).
Proof.
  intros H. unfold started. apply in_flat_map. exists (Started s). split; [exact H |].
  left. reflexivity.
Qed.

(** Two stretches of a list without repetition share no element. *)
Lemma NoDup_app_disjoint {A : Type} (a b : list A) (x : A) :
  List.NoDup (a ++ b) -> In x a -> In x b -> False.
Proof.
  induction a as [| y a IH]; intros Hnd Ha Hb; [destruct Ha |].
  cbn in Hnd. apply List.NoDup_cons_iff in Hnd as [Hy Hnd].
  destruct Ha as [-> | Ha]; [apply Hy, in_or_app; right; exact Hb | exact (IH Hnd Ha Hb)].
Qed.

(** The six steps are different. *)
Lemma pipeline_distinct : List.NoDup pipeline.
Proof. unfold pipeline. repeat constructor; cbn; intuition discriminate. Qed.

(** C6.  The six steps run in order on the machine, each starting from
    what the one before left.  If the commands of a step are the first to
    fail, the steps before it are reported as succeeded, the failing step
    is the last one started, none of the steps after it is started, the
    machine stays as the failing commands left it, and the run ends with
    [process.exit(1)].  If the commands of all six steps succeed, the six
    steps are started once each in the order of the pipeline, all are
    reported as succeeded, and [buildIso] returns.  One of the two is
    always the case.  In terms of the reports alone: a run either
    completes a prefix of the six steps and fails in the next one (before
    or, for the first step, after the report of its success), or
    completes all six; a reported failure comes with exit status 1 and no
    later step started; without a reported failure the steps started are
    the six of the pipeline. *)
Theorem buildIso_stops_at_first_failure (World Error : Type)
    (commands : Step -> World -> World * option Error)
    (listing : World -> World * option Error) (w : World) :
  let r := buildIso World Error commands listing {| world := w; events := [] |} in
  let evs := events World (snd r) in
  ((exists w', runCommands World Error commands listing pipeline w = (w', None))
   \/ (exists done f rest w1 w2 e,
         pipeline = (done ++ f :: rest)%list
         /\ runCommands World Error commands listing done w = (w1, None)
         /\ stepCommands World Error commands listing f w1 = (w2, Some e)))
  /\ (forall done f rest w1 w2 e,
        pipeline = (done ++ f :: rest)%list ->
        runCommands World Error commands listing done w = (w1, None) ->
        stepCommands World Error commands listing f w1 = (w2, Some e) ->
        fst r = Exited 1
        /\ world World (snd r) = w2
        /\ started evs = (done ++ [f])%list
        /\ (forall s, In s rest -> ~ In (Started s) evs)
        /\ exists fevs, failureTrace f fevs /\ evs = (flat_map success done ++ fevs)%list)
  /\ (forall w',
        runCommands World Error commands listing pipeline w = (w', None) ->
        fst r = Returned
        /\ world World (snd r) = w'
        /\ evs = flat_map success pipeline
        /\ started evs = pipeline)
  /\ (((exists done f rest fevs,
       pipeline = (done ++ f :: rest)%list
       /\ evs = (flat_map success done ++ fevs)%list /\ failureTrace f fevs
       /\ fst r = Exited 1)
   \/ (evs = flat_map success pipeline /\ fst r = Returned))
  /\ (forall s, In (Failed s) evs ->
      fst r = Exited 1
      /\ forall s', (position s < position s')%nat -> ~ In (Started s') evs)
  /\ ((forall s, ~ In (Failed s) evs) -> fst r = Returned /\ started evs = pipeline)).
Proof.
  intros r evs.
  assert (Hcommands :
    ((exists w', runCommands World Error commands listing pipeline w = (w', None))
     \/ (exists done f rest w1 w2 e,
           pipeline = (done ++ f :: rest)%list
           /\ runCommands World Error commands listing done w = (w1, None)
           /\ stepCommands World Error commands listing f w1 = (w2, Some e)))
    /\ (forall done f rest w1 w2 e,
          pipeline = (done ++ f :: rest)%list ->
          runCommands World Error commands listing done w = (w1, None) ->
          stepCommands World Error commands listing f w1 = (w2, Some e) ->
          fst r = Exited 1
          /\ world World (snd r) = w2
          /\ started evs = (done ++ [f])%list
          /\ (forall s, In s rest -> ~ In (Started s) evs)
          /\ exists fevs, failureTrace f fevs /\ evs = (flat_map success done ++ fevs)%list)
    /\ (forall w',
          runCommands World Error commands listing pipeline w = (w', None) ->
          fst r = Returned
          /\ world World (snd r) = w'
          /\ evs = flat_map success pipeline
          /\ started evs = pipeline)).
  { split; [apply runCommands_cases |]. split.
    - intros done f rest w1 w2 e Hl Hd Hf. subst evs r. rewrite buildIso_runAll, Hl.
      destruct (runAll_fails World Error commands listing done f rest
                  {| world := w; events := [] |} w1 w2 e Hd Hf) as (fevs & Ht & ->).
      cbn [fst snd world events app].
      assert (Hst : started (flat_map success done ++ fevs) = (done ++ [f])%list).
      { rewrite started_app, started_success, (started_failureTrace f fevs Ht). reflexivity. }
      split; [reflexivity |]. split; [reflexivity |]. split; [exact Hst |]. split.
      + intros s Hs Hin. apply started_In in Hin. rewrite Hst in Hin.
        pose proof pipeline_distinct as Hnd. rewrite Hl in Hnd.
        change (done ++ f :: rest)%list with (done ++ [f] ++ rest)%list in Hnd.
        rewrite app_assoc in Hnd. exact (NoDup_app_disjoint _ _ s Hnd Hin Hs).
      + exists fevs. split; [exact Ht | reflexivity].
    - intros w' Hw. subst evs r. rewrite buildIso_runAll.
      rewrite (runAll_succeeds World Error commands listing pipeline
                 {| world := w; events := [] |} w' Hw).
      cbn [fst snd world events app]. repeat split. }
  assert (Hreports :
    ((exists done f rest fevs,
         pipeline = (done ++ f :: rest)%list
         /\ evs = (flat_map success done ++ fevs)%list /\ failureTrace f fevs
         /\ fst r = Exited 1)
     \/ (evs = flat_map success pipeline /\ fst r = Returned))
    /\ (forall s, In (Failed s) evs ->
        fst r = Exited 1
        /\ forall s', (position s < position s')%nat -> ~ In (Started s') evs)
    /\ ((forall s, ~ In (Failed s) evs) -> fst r = Returned /\ started evs = pipeline)).
  { assert (Hchar : (exists done f rest fevs,
                        pipeline = (done ++ f :: rest)%list
                        /\ evs = (flat_map success done ++ fevs)%list /\ failureTrace f fevs
                        /\ fst r = Exited 1)
                    \/ (evs = flat_map success pipeline /\ fst r = Returned)).
    { subst evs r. rewrite buildIso_runAll.
      destruct (runAll_spec World Error commands listing pipeline {| world := w; events := [] |})
        as [(done & f & rest & fevs & e & w' & Hl & Hf & Hr) | (w' & Hr)];
        rewrite Hr; cbn [fst snd events].
      - left. exists done, f, rest, fevs. auto.
      - right. auto. }
    split; [exact Hchar |]. clearbody evs r.
    destruct Hchar as [(done & f & rest & fevs & Hl & -> & Hf & ->) | [-> ->]].
    - split.
      + intros s Hs. split; [reflexivity |]. intros s' Hlt Hin.
        split_pipeline Hl done; destruct Hf as [-> | ->]; cbn in Hs, Hin;
          repeat (destruct Hs as [Hs | Hs]; try discriminate Hs; try contradiction);
          injection Hs as <-;
          repeat (destruct Hin as [Hin | Hin]; try discriminate Hin; try contradiction);
          injection Hin as <-; cbn in Hlt; lia.
      + intros Hno. exfalso. apply (Hno f). apply in_or_app. right.
        destruct Hf as [-> | ->]; cbn; auto.
    - split.
      + intros s Hs. exfalso. cbn in Hs.
        repeat (destruct Hs as [Hs | Hs]; try discriminate Hs; try contradiction).
      + intros _. split; reflexivity. }
  destruct Hcommands as (H1 & H2 & H3).
  exact (conj H1 (conj H2 (conj H3 Hreports))).
Qed.

(** A build in which the package installation fails. *)
Lemma buildIso_stops_at_first_failure_witness :
  let r := buildIso nat string (failAt InstallPackages) noListing
             {| world := 0%nat; events := [] |} in
  let evs := events nat (snd r) in
  fst r = Exited 1
  /\ world nat (snd r) = 4%nat
  /\ started evs
     = ([SetupBuildEnvironment; DownloadBaseSystem; ConfigureSystem] ++ [InstallPackages])%list
  /\ (forall s, In s [InstallNestOSComponents; CreateISO] -> ~ In (Started s) evs)
  /\ exists fevs,
       failureTrace InstallPackages fevs
       /\ evs = (flat_map success [SetupBuildEnvironment; DownloadBaseSystem; ConfigureSystem]
                 ++ fevs)%list.
Proof.
  apply (proj1 (proj2 (buildIso_stops_at_first_failure nat string
                         (failAt InstallPackages) noListing 0%nat))
           [SetupBuildEnvironment; DownloadBaseSystem; ConfigureSystem] InstallPackages
           [InstallNestOSComponents; CreateISO] 3%nat 4%nat
           "Command failed with exit code 100");
    reflexivity.
Defined.

Example buildIso_all_succeed :
  buildIso nat string (fun _ w => (S w, None)) noListing {| world := 0%nat; events := [] |}
  = (Returned, {| world := 6%nat; events := flat_map success pipeline |}).
Proof. reflexivity. Qed.

Example buildIso_packages_fail :
  buildIso nat string (failAt InstallPackages) noListing {| world := 0%nat; events := [] |}
  = (Exited 1,
     {| world := 4%nat;
        events := (flat_map success [SetupBuildEnvironment; DownloadBaseSystem; ConfigureSystem]
                   ++ failure InstallPackages)%list |}).
Proof. reflexivity. Qed.

Example buildIso_listing_fails :
  buildIso nat string (fun _ w => (S w, None)) (fun w => (w, Some "spawn tree ENOENT"))
    {| world := 0%nat; events := [] |}
  = (Exited 1, {| world := 1%nat; events := lateFailure SetupBuildEnvironment |}).
Proof. reflexivity. Qed.

End IsoProofs.

(** ** More on the container statistics *)

Module StatsFacts.
Import JSNumber DockerStats StatsCases NumberFacts StatsProofs.

(** The unit index never leaves the ladder. *)
Lemma loop_index_bound (fuel : nat) :
  forall (size : number) (idx : nat),
    (idx <= 4)%nat -> (snd (formatBytes_loop fuel size idx) <= 4)%nat.
Proof.
  induction fuel as [| fuel IH]; intros size idx Hidx; [exact Hidx |].
  cbn [formatBytes_loop]. change (length units - 1)%nat with 4%nat.
  destruct (geb size (ofZ 1024)); cbn [andb]; [| exact Hidx].
  destruct (Nat.ltb_spec idx 4) as [Hlt | Hge]; [| exact Hidx].
  apply IH. lia.
Qed.

(** X1.  Whatever number [formatBytes] is given (negative, fractional, NaN
    or infinite included), the suffix of its answer is one of the five
    unit names, never a missing array element; and a value that is not
    [>= 1024] is printed unscaled with the unit [B]. *)
Theorem formatBytes_unit_always_named (exponentNotation : number -> string) (bytes : number) :
  exists (size : number) (unit : string),
    formatBytes exponentNotation bytes = toFixed2 exponentNotation size ++ unit
    /\ In unit units
    /\ (geb bytes (ofZ 1024) = false -> size = bytes /\ unit = "B").
Proof.
  unfold formatBytes.
  pose proof (loop_index_bound (length units) bytes 0 ltac:(lia)) as Hk.
  fold (formatBytes_scale bytes) in Hk.
  assert (Hsmall : geb bytes (ofZ 1024) = false -> formatBytes_scale bytes = (bytes, 0%nat)).
  { intros Hg. unfold formatBytes_scale. cbn [length units formatBytes_loop]. rewrite Hg.
    reflexivity. }
  destruct (formatBytes_scale bytes) as [size k]. cbn [snd] in Hk.
  exists size, (nth k units "undefined"). split; [reflexivity |]. split.
  - destruct k as [| [| [| [| [| k]]]]]; cbn; auto 10. lia.
  - intros Hg. specialize (Hsmall Hg). injection Hsmall as -> ->. auto.
Qed.

(** Every whole byte count below 1024, evaluated. *)
Lemma whole_bytes_checked (exponentNotation : number -> string) :
  forallb (fun n => String.eqb (formatBytes exponentNotation (ofZ (Z.of_nat n)))
                               (decimal (Z.of_nat n) ++ ".00B"))
          (seq 0 1024) = true.
Proof. vm_compute. reflexivity. Qed.

(** X2.  A whole number of bytes from 0 to 1023 is printed as its decimal
    numeral followed by [.00B]. *)
Theorem formatBytes_whole_below_1024 (exponentNotation : number -> string) (n : Z) :
  0 <= n < 1024 ->
  formatBytes exponentNotation (ofZ n) = decimal n ++ ".00B".
Proof.
  intros Hn.
  pose proof (whole_bytes_checked exponentNotation) as H.
  rewrite forallb_forall in H.
  specialize (H (Z.to_nat n)). rewrite Z2Nat.id in H by lia.
  apply String.eqb_eq, H, in_seq. lia.
Qed.

(** At 1023 bytes. *)
Lemma formatBytes_whole_below_1024_witness :
  formatBytes (fun _ => "") (ofZ 1023) = "1023.00B".
Proof. apply (formatBytes_whole_below_1024 (fun _ => "") 1023). lia. Defined.

(** Both zeros print as [0.00B]. *)
Lemma formatBytes_zero (exponentNotation : number -> string) (x : number) :
  isZero x = true -> formatBytes exponentNotation x = "0.00B".
Proof. destruct x as [s | s | | s m e]; try discriminate. intros _. destruct s; reflexivity. Qed.

(** X3.  With a memory limit of zero [formatMemoryUsage] does not fail: the
    limit prints as [0.00B] and the percentage is one of the texts [NaN],
    [Infinity] and [-Infinity]. *)
Theorem formatMemoryUsage_zero_limit (exponentNotation : number -> string) (stats : Stats) :
  isZero (limit (memory_stats stats)) = true ->
  exists percent : string,
    (percent = "NaN" \/ percent = "Infinity" \/ percent = "-Infinity")
    /\ formatMemoryUsage exponentNotation stats
       = formatBytes exponentNotation (usage (memory_stats stats))
         ++ " / 0.00B (" ++ percent ++ "%)".
Proof.
  intros Hz. unfold formatMemoryUsage.
  rewrite (formatBytes_zero exponentNotation _ Hz).
  assert (Hnf : isFinite (mul (div (usage (memory_stats stats)) (limit (memory_stats stats)))
                              (ofZ 100)) = false).
  { apply mul_not_finite. destruct (limit (memory_stats stats)); try discriminate.
    apply div_by_zero_not_finite. }
  exists (toFixed2 exponentNotation
            (mul (div (usage (memory_stats stats)) (limit (memory_stats stats))) (ofZ 100))).
  split; [apply not_finite_toFixed2, Hnf | reflexivity].
Qed.

(** A stopped container: usage and limit are both zero. *)
Lemma formatMemoryUsage_zero_limit_witness :
  exists percent : string,
    (percent = "NaN" \/ percent = "Infinity" \/ percent = "-Infinity")
    /\ formatMemoryUsage (fun _ => "") stoppedStats
       = formatBytes (fun _ => "") (usage (memory_stats stoppedStats))
         ++ " / 0.00B (" ++ percent ++ "%)".
Proof. apply (formatMemoryUsage_zero_limit (fun _ => "") stoppedStats). reflexivity. Defined.

(** The text for a stopped container. *)
Example stopped_memory_string :
  formatMemoryUsage (fun _ => "") stoppedStats = "0.00B / 0.00B (NaN%)".
Proof. vm_compute. reflexivity. Qed.

(** [find] returns the first element that satisfies the test. *)
Lemma find_app_first {A : Type} (f : A -> bool) (l1 l2 : list A) (x : A) :
  (forall y, In y l1 -> f y = false) -> f x = true ->
  find f (l1 ++ x :: l2) = Some x.
Proof.
  intros Hl1 Hx. induction l1 as [| y l1 IH]; cbn [app find].
  - rewrite Hx. reflexivity.
  - rewrite (Hl1 y) by (left; reflexivity). apply IH. intros z Hz. apply Hl1. right. exact Hz.
Qed.

(** [find] on a list without such an element. *)
Lemma find_none_iff {A : Type} (f : A -> bool) (l : list A) :
  (forall y, In y l -> f y = false) -> find f l = None.
Proof.
  intros H. induction l as [| y l IH]; [reflexivity |]. cbn [find].
  rewrite (H y) by (left; reflexivity). apply IH. intros z Hz. apply H. right. exact Hz.
Qed.

(** X4.  The block figure of an operation is the value of the first entry
    with that operation, or zero when that value is falsy; the entries
    after it, of any operation, have no effect. *)
Theorem blockValue_first_match_only (stats : Stats) (o : string)
    (before after : list BlockIOStats) (s : BlockIOStats) :
  (forall y, In y before -> op y <> o) -> op s = o ->
  blockValue o (withEntries stats (before ++ s :: after))
  = (if truthy (value s) then value s else ofZ 0).
Proof.
  intros Hb Hs. unfold blockValue, withEntries. cbn [blkio_stats io_service_bytes_recursive].
  rewrite (find_app_first _ before after s); [reflexivity | |].
  - intros y Hy. apply String.eqb_neq, Hb, Hy.
  - apply String.eqb_eq, Hs.
Qed.

(** A second [Read] entry of 200 is not counted. *)
Lemma blockValue_first_match_only_witness :
  blockValue "Read" (withEntries sampleStats
                       ([{| op := "Write"; value := ofZ 5 |}]
                        ++ {| op := "Read"; value := ofZ 100 |}
                        :: [{| op := "Read"; value := ofZ 200 |}]))
  = ofZ 100.
Proof.
  apply (blockValue_first_match_only sampleStats "Read" [{| op := "Write"; value := ofZ 5 |}]
           [{| op := "Read"; value := ofZ 200 |}] {| op := "Read"; value := ofZ 100 |}).
  - intros y [<- | []]. discriminate.
  - reflexivity.
Defined.

(** X5.  The block figure of an operation is zero or a truthy number (never
    NaN); it is zero when the sample has no [blkio_stats], no
    [io_service_bytes_recursive], or no entry whose [op] is exactly the
    operation name. *)
Theorem blockValue_defaults_to_zero (stats : Stats) (o : string) :
  (blockValue o stats = ofZ 0 \/ truthy (blockValue o stats) = true)
  /\ (blkio_stats stats = None -> blockValue o stats = ofZ 0)
  /\ (forall b, blkio_stats stats = Some b -> io_service_bytes_recursive b = None ->
      blockValue o stats = ofZ 0)
  /\ (forall b l, blkio_stats stats = Some b -> io_service_bytes_recursive b = Some l ->
      (forall y, In y l -> op y <> o) -> blockValue o stats = ofZ 0).
Proof.
  unfold blockValue. repeat split.
  - destruct (blkio_stats stats) as [b |]; [| auto].
    destruct (io_service_bytes_recursive b) as [l |]; [| auto].
    destruct (find _ l) as [s |]; [| auto].
    destruct (truthy (value s)) eqn:Ht; auto.
  - intros ->. reflexivity.
  - intros b -> ->. reflexivity.
  - intros b l -> -> Hl. rewrite find_none_iff; [reflexivity |].
    intros y Hy. apply String.eqb_neq, Hl, Hy.
Qed.

(** The operation names are compared exactly: [read] is not [Read]. *)
Lemma blockValue_defaults_to_zero_witness :
  blockValue "read" sampleStats = ofZ 0.
Proof.
  apply (proj2 (proj2 (proj2 (blockValue_defaults_to_zero sampleStats "read"))) _ _
           eq_refl eq_refl).
  intros y Hy. cbn in Hy.
  repeat (destruct Hy as [<- | Hy]; [discriminate |]). destruct Hy.
Defined.

(** X6.  A sample without [networks], or with an empty one, gives the sums
    zero and the text of two zero byte counts. *)
Theorem formatNetworkIO_without_interfaces (exponentNotation : number -> string)
    (stats : Stats) :
  networks stats = None \/ networks stats = Some [] ->
  networkRx stats = ofZ 0 /\ networkTx stats = ofZ 0
  /\ formatNetworkIO exponentNotation stats = "↓0.00B / ↑0.00B".
Proof.
  intros H.
  assert (Hv : networkValues stats = []).
  { unfold networkValues. destruct H as [-> | ->]; reflexivity. }
  unfold formatNetworkIO, networkRx, networkTx. rewrite Hv. repeat split.
Qed.

(** At the sample of a stopped container. *)
Lemma formatNetworkIO_without_interfaces_witness :
  networkRx stoppedStats = ofZ 0 /\ networkTx stoppedStats = ofZ 0
  /\ formatNetworkIO (fun _ => "") stoppedStats = "↓0.00B / ↑0.00B".
Proof.
  apply (formatNetworkIO_without_interfaces (fun _ => "") stoppedStats). left. reflexivity.
Defined.

(** X7.  [replace('/', '')] on a container name removes the first slash and
    nothing else: what precedes it and what follows it, later slashes
    included, is kept; a name without a slash is unchanged. *)
Theorem replaceFirst_removes_first_only (c : ascii) (pre post : string) :
  occurs c pre = false ->
  replaceFirst c (pre ++ String c post) = pre ++ post
  /\ replaceFirst c pre = pre.
Proof.
  induction pre as [| a pre IH]; intros H.
  - change (EmptyString ++ String c post) with (String c post).
    change (EmptyString ++ post) with post.
    cbn [replaceFirst]. rewrite Ascii.eqb_refl. split; reflexivity.
  - cbn [occurs] in H. apply orb_false_iff in H as [Ha Hpre].
    destruct (IH Hpre) as [IH1 IH2].
    change (String a pre ++ String c post) with (String a (pre ++ String c post)).
    change (String a pre ++ post) with (String a (pre ++ post)).
    cbn [replaceFirst]. rewrite Ha, IH1, IH2. split; reflexivity.
Qed.

(** The name [/stack/web] becomes [stack/web]. *)
Lemma replaceFirst_removes_first_only_witness :
  replaceFirst "/" ("" ++ String "/" "stack/web") = "" ++ "stack/web"
  /\ replaceFirst "/" "" = "".
Proof. apply (replaceFirst_removes_first_only "/" "" "stack/web"). reflexivity. Defined.

(** The entries of an answer come from the containers, one each and in order. *)
Lemma statsEntries_some {Error : Type} (exponentNotation : number -> string)
    (docker : DockerClient Error) (containers : list ContainerInfo) :
  forall entries,
    statsEntries exponentNotation docker containers = Some entries ->
    Forall2 (fun c e => exists stats,
                 containerStats docker (Id c) = inr stats
                 /\ statsEntry exponentNotation c stats = Some e)
            containers entries.
Proof.
  induction containers as [| c containers IH]; intros entries H; cbn [statsEntries] in H.
  - injection H as <-. constructor.
  - destruct (containerStats docker (Id c)) as [e | stats] eqn:Hs; [discriminate |].
    destruct (statsEntry exponentNotation c stats) as [entry |] eqn:He; [| discriminate].
    destruct (statsEntries exponentNotation docker containers) as [es |]; [| discriminate].
    injection H as <-. constructor; [eauto | apply IH; reflexivity].
Qed.

(** One container without a name or without statistics loses them all. *)
Lemma statsEntries_none {Error : Type} (exponentNotation : number -> string)
    (docker : DockerClient Error) (containers : list ContainerInfo) (c : ContainerInfo) :
  In c containers ->
  Names c = [] \/ (exists e, containerStats docker (Id c) = inl e) ->
  statsEntries exponentNotation docker containers = None.
Proof.
  intros Hin Hbad. induction containers as [| c' containers IH]; [destruct Hin |].
  cbn [statsEntries]. destruct Hin as [-> | Hin].
  - destruct Hbad as [Hn | [e ->]]; [| reflexivity].
    destruct (containerStats docker (Id c)); [reflexivity |].
    unfold statsEntry. rewrite Hn. reflexivity.
  - rewrite (IH Hin). destruct (containerStats docker (Id c')); [reflexivity |].
    destruct (statsEntry exponentNotation c' s); reflexivity.
Qed.

(** When every container has a name and statistics there is an answer. *)
Lemma statsEntries_all {Error : Type} (exponentNotation : number -> string)
    (docker : DockerClient Error) (containers : list ContainerInfo) :
  (forall c, In c containers ->
     Names c <> [] /\ exists stats, containerStats docker (Id c) = inr stats) ->
  exists entries, statsEntries exponentNotation docker containers = Some entries.
Proof.
  induction containers as [| c containers IH]; intros H; [eexists; reflexivity |].
  cbn [statsEntries].
  destruct (H c (or_introl eq_refl)) as [Hn [stats ->]].
  destruct IH as [es ->]; [intros c' Hc'; apply H; right; exact Hc' |].
  unfold statsEntry. destruct (Names c) as [| n rest]; [contradiction |]. eexists. reflexivity.
Qed.

(** X8.  [GET /stats] answers with one entry for each listed container, in
    the order of the list, or with none: if one container has an empty
    [Names] array or its statistics call rejects, the whole request fails
    with ['Failed to fetch Docker stats']; if every container has a name
    and statistics, the request succeeds. *)
Theorem getStats_all_or_nothing (Error : Type) (exponentNotation : number -> string)
    (docker : DockerClient Error) (containers : list ContainerInfo) :
  listContainers docker = inr containers ->
  (forall entries,
     getStats exponentNotation docker = inr entries ->
     Forall2 (fun c e => exists stats,
                  containerStats docker (Id c) = inr stats
                  /\ statsEntry exponentNotation c stats = Some e)
             containers entries)
  /\ (forall c, In c containers ->
      Names c = [] \/ (exists e, containerStats docker (Id c) = inl e) ->
      getStats exponentNotation docker = inl "Failed to fetch Docker stats")
  /\ ((forall c, In c containers ->
        Names c <> [] /\ exists stats, containerStats docker (Id c) = inr stats) ->
      exists entries, getStats exponentNotation docker = inr entries).
Proof.
  intros Hl. unfold getStats. rewrite Hl. repeat split.
  - intros entries H.
    destruct (statsEntries exponentNotation docker containers) as [es |] eqn:He;
      [| discriminate].
    injection H as <-. apply (statsEntries_some _ _ _ _ He).
  - intros c Hin Hbad. rewrite (statsEntries_none _ _ _ c Hin Hbad). reflexivity.
  - intros Hall. destruct (statsEntries_all exponentNotation docker containers Hall) as [es ->].
    eauto.
Qed.

(** One container of two has gone since the list was made. *)
Lemma getStats_all_or_nothing_witness :
  getStats (fun _ => "") webUpDbGone = inl "Failed to fetch Docker stats".
Proof.
  apply (proj1 (proj2 (getStats_all_or_nothing string (fun _ => "") webUpDbGone
                         [webInfo; dbInfo] eq_refl)) dbInfo).
  - right. left. reflexivity.
  - right. exists "no such container". reflexivity.
Defined.

End StatsFacts.

(** ** More on the system information *)

Module InfoFacts.
Import SystemInfo InfoCases InfoProofs.

(** [a ?? b] is not nullish when [b] is not. *)
Lemma nullish_nonNullish (a b : value) : nonNullish b -> nonNullish (nullish a b).
Proof. intros Hb. destruct a; cbn; try exact Hb; split; discriminate. Qed.

(** [docker] is not a key of the basic answer. *)
Lemma docker_not_basic : "docker" ∉ basicKeys.
Proof. apply basic_detailed_disjoint. unfold detailedKeys. rewrite !elem_of_union, !elem_of_singleton. auto. Qed.

(** [docker] is a key of the detailed answer. *)
Lemma docker_detailed : "docker" ∈ detailedKeys.
Proof. unfold detailedKeys. rewrite !elem_of_union, !elem_of_singleton. auto. Qed.

(** X9.  The query value of [detailed] selects the detailed answer exactly
    when it is the string [true]: any other value, and a missing one, give
    the basic keys only, so the key [docker] is in the answer if and only
    if [detailed=true] was sent. *)
Theorem detailed_only_for_true (Error : Type) (si : Provider Error)
    (query : gmap string QueryValue) (response : gmap string value) :
  getInfo si query = inr response ->
  (query !! "detailed" = Some (Single "true") -> dom response = basicKeys ∪ detailedKeys)
  /\ (query !! "detailed" <> Some (Single "true") -> dom response = basicKeys)
  /\ ("docker" ∈ dom response <-> query !! "detailed" = Some (Single "true")).
Proof.
  unfold getInfo, parseDetailed. intros H.
  assert (Hcases : (query !! "detailed" = Some (Single "true")
                    /\ dom response = basicKeys ∪ detailedKeys)
                   \/ (query !! "detailed" <> Some (Single "true")
                       /\ dom response = basicKeys)).
  { destruct (query !! "detailed") as [[s | l] |] eqn:Hq; [| discriminate |].
    - destruct (si_cpu si) as [e | cpu]; [discriminate |].
      destruct (si_mem si) as [e | mem]; [discriminate |].
      destruct (si_osInfo si) as [e | os]; [discriminate |].
      destruct (si_system si) as [e | system]; [discriminate |].
      destruct (String.eqb_spec s "true") as [-> | Hne]; cbn [negb] in H.
      + destruct (si_currentLoad si) as [e | load]; [discriminate |].
        destruct (si_services si) as [e | services]; [discriminate |].
        destruct (si_dockerInfo si) as [e | dockerInfo]; [discriminate |].
        injection H as <-. left. split; [reflexivity |].
        rewrite detailedInfo_dom, basicInfo_dom. reflexivity.
      + injection H as <-. right. split; [congruence | apply basicInfo_dom].
    - destruct (si_cpu si) as [e | cpu]; [discriminate |].
      destruct (si_mem si) as [e | mem]; [discriminate |].
      destruct (si_osInfo si) as [e | os]; [discriminate |].
      destruct (si_system si) as [e | system]; [discriminate |].
      cbn [negb] in H. injection H as <-. right. split; [discriminate | apply basicInfo_dom]. }
  destruct Hcases as [[Hq Hd] | [Hq Hd]]; rewrite Hd.
  - split; [auto |]. split; [contradiction |].
    split; [auto |]. intros _. apply elem_of_union. right. exact docker_detailed.
  - split; [contradiction |]. split; [auto |].
    split; [intros Hin; destruct (docker_not_basic Hin) | contradiction].
Qed.

(** [detailed=TRUE] gives the basic answer. *)
Lemma detailed_only_for_true_witness :
  exists response : gmap string value,
    getInfo sampleProvider shoutedQuery = inr response /\ dom response = basicKeys.
Proof.
  eexists. split; [reflexivity |].
  apply (proj1 (proj2 (detailed_only_for_true unit sampleProvider shoutedQuery _ eq_refl))).
  discriminate.
Defined.

(** X10.  [GET /info] gives no partial answer: a repeated [detailed]
    parameter is refused by the schema; a failure of one of the four
    queries every request makes fails the request, also in basic mode; and
    in detailed mode so does a failure of the load, services or Docker
    query. *)
Theorem info_no_partial_answer (Error : Type) (si : Provider Error)
    (query : gmap string QueryValue) :
  ((exists l, query !! "detailed" = Some (Repeated l)) -> getInfo si query = inl ZodError)
  /\ ((exists e, si_cpu si = inl e \/ si_mem si = inl e \/ si_osInfo si = inl e
                 \/ si_system si = inl e) ->
      exists f, getInfo si query = inl f)
  /\ (query !! "detailed" = Some (Single "true") ->
      (exists e, si_currentLoad si = inl e \/ si_services si = inl e
                 \/ si_dockerInfo si = inl e) ->
      exists f, getInfo si query = inl f).
Proof.
  unfold getInfo, parseDetailed. repeat split.
  - intros [l ->]. reflexivity.
  - intros [e H]. destruct (query !! "detailed") as [[s | l] |]; try (eexists; reflexivity);
      destruct (si_cpu si), (si_mem si), (si_osInfo si), (si_system si);
      try (eexists; reflexivity);
      destruct H as [H | [H | [H | H]]]; discriminate H.
  - intros -> [e H]. cbn [String.eqb Ascii.eqb Bool.eqb negb].
    destruct (si_cpu si), (si_mem si), (si_osInfo si), (si_system si);
      try (eexists; reflexivity).
    change (negb ("true" =? "true")%string) with false. cbn match.
    destruct (si_currentLoad si), (si_services si), (si_dockerInfo si);
      try (eexists; reflexivity);
      destruct H as [H | [H | H]]; discriminate H.
Qed.

(** The hardware query fails and the basic request with it. *)
Lemma info_no_partial_answer_witness :
  exists f, getInfo withoutSystem ∅ = inl f.
Proof.
  apply (proj1 (proj2 (info_no_partial_answer string withoutSystem ∅))).
  exists "dmidecode: command not found". right. right. right. reflexivity.
Defined.

(** X11.  In basic mode the answer depends on the four basic queries and the
    process uptime only: two providers that agree on these give the same
    answer, whatever their load, services and Docker queries do. *)
Theorem basic_mode_ignores_detailed_queries (Error : Type) (si1 si2 : Provider Error)
    (query : gmap string QueryValue) :
  query !! "detailed" <> Some (Single "true") ->
  si_cpu si1 = si_cpu si2 -> si_mem si1 = si_mem si2 -> si_osInfo si1 = si_osInfo si2 ->
  si_system si1 = si_system si2 -> processUptime si1 = processUptime si2 ->
  getInfo si1 query = getInfo si2 query.
Proof.
  intros Hq Hc Hm Ho Hs Hu. unfold getInfo, parseDetailed.
  destruct (query !! "detailed") as [[s | l] |]; [| reflexivity |].
  - destruct (String.eqb_spec s "true") as [-> | Hne]; [contradiction |].
    rewrite Hc, Hm, Ho, Hs. unfold basicInfo. rewrite Hu. reflexivity.
  - rewrite Hc, Hm, Ho, Hs. unfold basicInfo. rewrite Hu. reflexivity.
Qed.

(** A host without Docker answers the basic request as one with it. *)
Lemma basic_mode_ignores_detailed_queries_witness :
  getInfo sampleProvider ∅ = getInfo sampleProviderNoDocker ∅.
Proof.
  apply (basic_mode_ignores_detailed_queries unit sampleProvider sampleProviderNoDocker ∅);
    try reflexivity.
  rewrite lookup_empty. discriminate.
Defined.

(** X12.  In every answer [uptime] is present and neither null nor
    undefined, whatever the provider left out; in a detailed answer so are
    the image count and the four container counts under [docker]. *)
Theorem info_defaults_fill_gaps (Error : Type) (si : Provider Error)
    (query : gmap string QueryValue) (response : gmap string value) :
  getInfo si query = inr response ->
  (exists v, response !! "uptime" = Some v /\ nonNullish v)
  /\ (query !! "detailed" = Some (Single "true") ->
      exists counts total running paused stopped images docker,
        response !! "docker" = Some (VObj docker)
        /\ docker !! "containers" = Some (VObj counts)
        /\ docker !! "images" = Some images /\ nonNullish images
        /\ counts !! "total" = Some total /\ nonNullish total
        /\ counts !! "running" = Some running /\ nonNullish running
        /\ counts !! "paused" = Some paused /\ nonNullish paused
        /\ counts !! "stopped" = Some stopped /\ nonNullish stopped).
Proof.
  assert (Hzero : nonNullish (VNum (JSNumber.ofZ 0))) by (split; discriminate).
  unfold getInfo, parseDetailed. intros H.
  destruct (query !! "detailed") as [[s | l] |] eqn:Hq; [| discriminate |];
    destruct (si_cpu si) as [e | cpu]; try discriminate;
    destruct (si_mem si) as [e | mem]; try discriminate;
    destruct (si_osInfo si) as [e | os]; try discriminate;
    destruct (si_system si) as [e | system]; try discriminate.
  - destruct (String.eqb_spec s "true") as [-> | Hne]; cbn [negb] in H.
    + destruct (si_currentLoad si) as [e | load]; [discriminate |].
      destruct (si_services si) as [e | services]; [discriminate |].
      destruct (si_dockerInfo si) as [e | dockerInfo]; [discriminate |].
      injection H as <-. split.
      * eexists. split; [reflexivity |]. apply nullish_nonNullish. split; discriminate.
      * intros _. do 7 eexists. unfold detailedInfo, object.
        split; [apply lookup_insert_eq |].
        repeat (split; [reflexivity || (apply nullish_nonNullish, Hzero) |]).
        apply nullish_nonNullish, Hzero.
    + injection H as <-. split; [| intros [= Hs]; congruence].
      eexists. split; [reflexivity |]. apply nullish_nonNullish. split; discriminate.
  - cbn [negb] in H. injection H as <-. split; [| discriminate].
    eexists. split; [reflexivity |]. apply nullish_nonNullish. split; discriminate.
Qed.

(** A provider whose records hold nulls only. *)
Lemma info_defaults_fill_gaps_witness :
  exists response : gmap string value,
    getInfo blankProvider ∅ = inr response
    /\ exists v, response !! "uptime" = Some v /\ nonNullish v.
Proof.
  eexists. split; [reflexivity |].
  exact (proj1 (info_defaults_fill_gaps unit blankProvider ∅ _ eq_refl)).
Defined.

End InfoFacts.

(** ** More on the throughput figures *)

Module PerformanceFacts.
Import JSNumber Performance PerformanceCases PerformanceProofs.

(** X13.  When the pattern matches, the captured text is a whole, non-empty
    run of digits and dots standing right before the first [ GB/s] that
    has such a run before it: the character before the capture is not of
    the class, and no match starts at an earlier place. *)
Theorem capture_is_leftmost_whole_run (s : string) :
  forall g, matchThroughput s = Some g ->
    exists pre post,
      s = pre ++ g ++ literal ++ post
      /\ g <> EmptyString /\ allClass g
      /\ endsWithClass pre = false
      /\ (forall pre1 pre2, pre = pre1 ++ pre2 -> pre2 <> EmptyString ->
          matchHere (pre2 ++ g ++ literal ++ post) = None).
Proof.
  induction s as [| c s IH]; intros g H; [discriminate |].
  cbn [matchThroughput] in H.
  destruct (matchHere (String c s)) as [g' |] eqn:Hm.
  - injection H as <-. destruct (matchHere_sound _ _ Hm) as (Hne & Hall & post & Hs).
    exists EmptyString, post. repeat split; auto.
    intros pre1 pre2 Hp Hp2. destruct pre1; [| discriminate Hp].
    rewrite append_nil in Hp. congruence.
  - destruct (IH g H) as (pre & post & Hs & Hne & Hall & Hend & Hleft).
    exists (String c pre), post. subst s. repeat split; auto.
    + destruct pre as [| d pre]; [| exact Hend].
      cbn [endsWithClass]. destruct (classChar c) eqn:Hc; [| reflexivity].
      rewrite append_nil in Hm.
      rewrite <- append_cons, matchHere_exact in Hm; [discriminate | discriminate |].
      apply allClass_cons. auto.
    + intros pre1 pre2 Hp Hp2. destruct pre1 as [| d pre1].
      * rewrite append_nil in Hp. subst pre2. exact Hm.
      * rewrite append_cons in Hp. injection Hp as -> Hp. apply (Hleft pre1 pre2 Hp Hp2).
Qed.

(** The capture of the [dd] sample. *)
Lemma capture_is_leftmost_whole_run_witness :
  exists pre post,
    ddFast = pre ++ "12.8" ++ literal ++ post
    /\ "12.8" <> EmptyString /\ allClass "12.8"
    /\ endsWithClass pre = false
    /\ (forall pre1 pre2, pre = pre1 ++ pre2 -> pre2 <> EmptyString ->
        matchHere (pre2 ++ "12.8" ++ literal ++ post) = None).
Proof. apply (capture_is_leftmost_whole_run ddFast "12.8"). reflexivity. Defined.

(** No digit, no span. *)
Lemma spanDigits_stop (s : string) : startsWithDigit s = false -> spanDigits s = ([], s).
Proof. destruct s as [| c s]; [reflexivity |]. cbn. intros ->. reflexivity. Qed.

(** X14.  A capture that starts with a dot not followed by a digit makes the
    throughput NaN: the pattern accepts texts that [parseFloat] does not. *)
Theorem dot_without_digit_is_NaN (stdout r : string) :
  matchThroughput stdout = Some (String "." r) -> startsWithDigit r = false ->
  throughput stdout = S754_nan.
Proof.
  intros Hm Hr. unfold throughput. rewrite Hm. unfold parseFloat.
  rewrite (spanDigits_stop (String "." r)) by reflexivity.
  rewrite (spanDigits_stop r Hr). reflexivity.
Qed.

(** Three dots before the unit. *)
Lemma dot_without_digit_is_NaN_witness :
  throughput "speed: ... GB/s" = S754_nan.
Proof. apply (dot_without_digit_is_NaN "speed: ... GB/s" ".."); reflexivity. Defined.

(** Rounding keeps the sign. *)
Lemma binary_round_aux_sign (sx : bool) (m e : Z) (l : location) :
  match binary_round_aux prec emax sx m e l with
  | S754_zero s | S754_infinity s | S754_finite s _ _ => s = sx
  | S754_nan => True
  end.
Proof.
  unfold binary_round_aux.
  destruct (shr_fexp prec emax m e l) as [mrs' e'].
  destruct (shr_fexp prec emax _ e' loc_Exact) as [mrs'' e''].
  destruct (shr_m mrs'') as [| p | p]; try exact I; [reflexivity |].
  destruct (e'' <=? emax - prec)%Z; reflexivity.
Qed.

(** A decimal without a sign is not negative. *)
Lemma decimalToNumber_notNegative (n : Z) (k : nat) : notNegative (decimalToNumber n k).
Proof.
  unfold decimalToNumber. destruct n as [| p | p]; [reflexivity | |];
    destruct (SFdiv_core_binary prec emax _ 0 (10 ^ Z.of_nat k) 0) as [[q e] l];
    apply (binary_round_aux_sign false q e l).
Qed.

(** [parseFloat] on digits and dots is not negative. *)
Lemma parseFloat_notNegative (s : string) : notNegative (parseFloat s).
Proof.
  unfold parseFloat. destruct (spanDigits s) as [ip r].
  destruct (match r with String "." r' => spanDigits r' | _ => ([], r) end) as [fp r''].
  destruct ip, fp; try exact I; apply decimalToNumber_notNegative.
Qed.

(** X15.  The throughput is never negative, and never minus zero, whatever
    the command printed. *)
Theorem throughput_never_negative (stdout : string) : notNegative (throughput stdout).
Proof.
  unfold throughput.
  pose proof (parseFloat_notNegative
                match matchThroughput stdout with Some g => g | None => "0" end) as H.
  destruct (parseFloat _) as [s | s | | s m e]; cbn [notNegative] in H; try subst s;
    try reflexivity; try exact I.
  change (ofZ 1024) with (S754_finite false 4503599627370496 (-42)).
  unfold mul, SFmul. cbn [xorb].
  apply (binary_round_aux_sign false).
Qed.

(** The span of a digit string followed by a non-digit. *)
Lemma spanDigits_digits (a r : string) :
  allDigits a = true -> startsWithDigit r = false ->
  spanDigits (a ++ r) = (map digitValue (list_ascii_of_string a), r).
Proof.
  intros Ha Hr. induction a as [| c a IH].
  - rewrite append_nil. apply spanDigits_stop, Hr.
  - cbn [allDigits] in Ha. apply andb_prop in Ha as [Hc Ha].
    rewrite append_cons. cbn [spanDigits]. rewrite Hc, (IH Ha). reflexivity.
Qed.

(** The span of a digit string. *)
Lemma spanDigits_all (a : string) :
  allDigits a = true -> spanDigits a = (map digitValue (list_ascii_of_string a), EmptyString).
Proof.
  intros Ha. induction a as [| c a IH]; [reflexivity |].
  cbn [allDigits] in Ha. apply andb_prop in Ha as [Hc Ha].
  cbn [spanDigits]. rewrite Hc, (IH Ha). reflexivity.
Qed.

(** X16.  [parseFloat] reads a capture up to its second dot: what follows the
    second dot does not change the number. *)
Theorem parseFloat_stops_at_second_dot (a b rest : string) :
  allDigits a = true -> allDigits b = true ->
  parseFloat (a ++ "." ++ b ++ "." ++ rest) = parseFloat (a ++ "." ++ b).
Proof.
  intros Ha Hb. unfold parseFloat.
  rewrite (spanDigits_digits a ("." ++ b ++ "." ++ rest) Ha eq_refl).
  rewrite (spanDigits_digits a ("." ++ b) Ha eq_refl).
  change ("." ++ b ++ "." ++ rest) with (String "." (b ++ "." ++ rest)).
  change ("." ++ b) with (String "." b). cbn match.
  rewrite (spanDigits_digits b ("." ++ rest) Hb eq_refl).
  rewrite (spanDigits_all b Hb). reflexivity.
Qed.

(** [1.2.3] reads as [1.2]. *)
Lemma parseFloat_stops_at_second_dot_witness :
  parseFloat ("1" ++ "." ++ "2" ++ "." ++ "3") = parseFloat ("1" ++ "." ++ "2").
Proof. apply (parseFloat_stops_at_second_dot "1" "2" "3"); reflexivity. Defined.

(** Every whole figure below 10000, evaluated. *)
Lemma whole_figures_checked :
  forallb (fun n => sameNumber (mul (parseFloat (decimal (Z.of_nat n))) (ofZ 1024))
                               (ofZ (1024 * Z.of_nat n)))
          (seq 0 (Z.to_nat 10000)) = true.
Proof. vm_compute. reflexivity. Qed.

(** X17.  When the capture is the decimal numeral of a whole number [n] below
    10000, the throughput is exactly [1024 * n]. *)
Theorem whole_figure_read_exactly (stdout : string) (n : Z) :
  0 <= n < 10000 ->
  matchThroughput stdout = Some (decimal n) ->
  throughput stdout = ofZ (1024 * n).
Proof.
  intros Hn Hm. unfold throughput. rewrite Hm.
  pose proof whole_figures_checked as H. rewrite forallb_forall in H.
  specialize (H (Z.to_nat n)). rewrite Z2Nat.id in H by lia.
  apply sameNumber_eq, H, in_seq. lia.
Qed.

(** [2 GB/s] is 2048. *)
Lemma whole_figure_read_exactly_witness :
  throughput "1048576000 bytes copied, 0.5 s, 2 GB/s" = ofZ (1024 * 2).
Proof.
  apply (whole_figure_read_exactly "1048576000 bytes copied, 0.5 s, 2 GB/s" 2).
  - lia.
  - reflexivity.
Defined.

End PerformanceFacts.

(** ** More on the port objects *)

Module RoutesFacts.
Import DockerRoutes RoutesProofs.

(** The keys of the two objects after the loop. *)
Lemma portMaps_dom (otherNotation : JSNumber.number -> string) (l : list Port.t) :
  forall acc : gmap string unit * gmap string (list PortBinding),
    dom (fst (fold_left (addPort otherNotation) l acc))
    = dom (fst acc) ∪ list_to_set (map (portStr otherNotation) l)
    /\ dom (snd (fold_left (addPort otherNotation) l acc))
       = dom (snd acc) ∪ list_to_set (map (portStr otherNotation) l).
Proof.
  induction l as [| p l IH]; intros acc.
  - cbn. split; symmetry; apply (right_id_L ∅ (∪)).
  - cbn [fold_left map list_to_set]. destruct (IH (addPort otherNotation acc p)) as [-> ->].
    unfold addPort. cbn [fst snd]. rewrite !dom_insert_L.
    split; apply set_eq; intros k; rewrite !elem_of_union; tauto.
Qed.

(** X18.  [ExposedPorts] and [PortBindings] always have the same keys; these
    are exactly the keys [<container>/tcp] of the entries of the port
    list, with the container port as JavaScript prints it; without a port
    list, or with an empty one, both objects are empty. *)
Theorem exposed_and_bound_keys_agree (otherNotation : JSNumber.number -> string)
    (spec : ContainerSpec) :
  dom (exposedPorts otherNotation spec) = dom (portBindings otherNotation spec)
  /\ (forall l, ports spec = Some l ->
      forall k, k ∈ dom (exposedPorts otherNotation spec)
                <-> exists p, In p l
                              /\ k = toString otherNotation (Port.container p) ++ "/tcp")
  /\ (ports spec = None \/ ports spec = Some [] ->
      exposedPorts otherNotation spec = ∅ /\ portBindings otherNotation spec = ∅).
Proof.
  unfold exposedPorts, portBindings, portMaps. split; [| split].
  - destruct (ports spec) as [l |]; [| reflexivity].
    destruct (portMaps_dom otherNotation l (∅, ∅)) as [-> ->]. reflexivity.
  - intros l ->. destruct (portMaps_dom otherNotation l (∅, ∅)) as [-> _]. cbn [fst].
    intros k. rewrite dom_empty_L, elem_of_union, elem_of_empty, elem_of_list_to_set.
    rewrite list_elem_of_In, in_map_iff. unfold portStr. split.
    + intros [[] | (p & <- & Hp)]. eauto.
    + intros (p & Hp & ->). right. eauto.
  - intros [-> | ->]; split; reflexivity.
Qed.

(** The keys of a request that names port 80 twice. *)
Lemma exposed_and_bound_keys_agree_witness :
  "80/tcp" ∈ dom (exposedPorts (fun _ => "") twiceSpec)
  <-> exists p, In p [port 80 8080; port 80 9090]
                /\ "80/tcp" = toString (fun _ => "") (Port.container p) ++ "/tcp".
Proof.
  apply (proj1 (proj2 (exposed_and_bound_keys_agree (fun _ => "") twiceSpec)) _ eq_refl
           "80/tcp").
Defined.

(** A list has at most as many different elements as entries. *)
Lemma size_list_to_set_le (l : list string) :
  (size (list_to_set l : gset string) <= length l)%nat
  /\ (size (list_to_set l : gset string) = length l <-> NoDup l).
Proof.
  induction l as [| x l [IHle IHeq]].
  - cbn. rewrite size_empty. split; [lia |]. split; [constructor | reflexivity].
  - cbn [list_to_set length].
    destruct (decide (x ∈ (list_to_set l : gset string))) as [Hin | Hnin].
    + replace ({[x]} ∪ list_to_set l : gset string) with (list_to_set l : gset string)
        by (apply set_eq; intros k; rewrite elem_of_union, elem_of_singleton;
            split; [auto | intros [-> | H]; auto]).
      split; [lia |]. split; [lia |].
      intros Hnd. apply NoDup_cons in Hnd as [Hx _].
      exfalso. apply Hx. apply elem_of_list_to_set in Hin. exact Hin.
    + rewrite size_union by (apply disjoint_singleton_l; exact Hnin).
      rewrite size_singleton. split; [lia |].
      rewrite NoDup_cons. rewrite <- IHeq.
      rewrite elem_of_list_to_set in Hnin. split; [intros H; split; [exact Hnin | lia] | lia].
Qed.

(** Two readings of the entries that tell the same entries apart have
    repetitions on the same lists. *)
Lemma NoDup_map_same {A B C : Type} (f : A -> B) (g : A -> C) (l : list A) :
  (forall x y, In x l -> In y l -> (f x = f y <-> g x = g y)) ->
  (NoDup (map f l) <-> NoDup (map g l)).
Proof.
  induction l as [| a l IH]; intros H.
  - cbn. split; constructor.
  - cbn [map]. rewrite !NoDup_cons.
    rewrite IH by (intros x y Hx Hy; apply H; right; assumption).
    assert (Hin : f a ∈ map f l <-> g a ∈ map g l).
    { rewrite !list_elem_of_In, !in_map_iff. split.
      - intros (y & Hy & Hl). exists y. split; [| exact Hl].
        apply (H y a); [right; exact Hl | left; reflexivity | exact Hy].
      - intros (y & Hy & Hl). exists y. split; [| exact Hl].
        apply (H y a); [right; exact Hl | left; reflexivity | exact Hy]. }
    rewrite Hin. reflexivity.
Qed.

(** X19.  The container is given at most as many exposed ports as the list
    has entries, as many bindings as exposed ports, and exactly as many as
    entries if and only if no two entries have container ports that print
    alike; for integer ports of magnitude below 2^53, if and only if no
    container port is listed twice. *)
Theorem repeated_ports_collapse (otherNotation : JSNumber.number -> string)
    (spec : ContainerSpec) (l : list Port.t) :
  ports spec = Some l ->
  (size (exposedPorts otherNotation spec) <= length l)%nat
  /\ size (portBindings otherNotation spec) = size (exposedPorts otherNotation spec)
  /\ (size (exposedPorts otherNotation spec) = length l
      <-> NoDup (map (fun p => toString otherNotation (Port.container p)) l))
  /\ ((forall p, In p l ->
        exists n, integerValue (Port.container p) = Some n /\ (Z.abs n < maxSafe)%Z) ->
      (size (exposedPorts otherNotation spec) = length l
       <-> NoDup (map (fun p => integerValue (Port.container p)) l))).
Proof.
  intros Hp.
  assert (Hd : dom (exposedPorts otherNotation spec)
               = list_to_set (map (portStr otherNotation) l)).
  { unfold exposedPorts, portMaps. rewrite Hp.
    destruct (portMaps_dom otherNotation l (∅, ∅)) as [-> _]. cbn [fst].
    rewrite dom_empty_L, (left_id_L ∅ (∪)). reflexivity. }
  assert (Hb : dom (portBindings otherNotation spec) = dom (exposedPorts otherNotation spec)).
  { unfold exposedPorts, portBindings, portMaps. rewrite Hp.
    destruct (portMaps_dom otherNotation l (∅, ∅)) as [-> ->]. reflexivity. }
  rewrite <- !size_dom, Hb, Hd.
  destruct (size_list_to_set_le (map (portStr otherNotation) l)) as [Hle Heq].
  rewrite !length_map in *.
  assert (Htext : NoDup (map (portStr otherNotation) l)
                  <-> NoDup (map (fun p => toString otherNotation (Port.container p)) l)).
  { apply NoDup_map_same. intros x y _ _. unfold portStr. split.
    - apply append_cancel_r.
    - intros ->. reflexivity. }
  split; [exact Hle |]. split; [reflexivity |]. split.
  - rewrite Heq. exact Htext.
  - intros Hint. rewrite Heq, Htext. apply NoDup_map_same.
    intros x y Hx Hy.
    destruct (Hint x Hx) as (n & Hn & Hnb). destruct (Hint y Hy) as (m & Hm & Hmb).
    rewrite (toString_integer otherNotation _ _ Hn Hnb).
    rewrite (toString_integer otherNotation _ _ Hm Hmb). rewrite Hn, Hm. split.
    + intros H. f_equal. apply numeral_inj, H.
    + intros [= ->]. reflexivity.
Qed.

(** Port 80 listed twice. *)
Lemma repeated_ports_collapse_witness :
  (size (exposedPorts (fun _ => "") twiceSpec) <= 2)%nat
  /\ size (portBindings (fun _ => "") twiceSpec) = size (exposedPorts (fun _ => "") twiceSpec)
  /\ (size (exposedPorts (fun _ => "") twiceSpec) = 2%nat
      <-> NoDup (map (fun p => toString (fun _ => "") (Port.container p))
                   [port 80 8080; port 80 9090]))
  /\ ((forall p, In p [port 80 8080; port 80 9090] ->
        exists n, integerValue (Port.container p) = Some n /\ (Z.abs n < maxSafe)%Z) ->
      (size (exposedPorts (fun _ => "") twiceSpec) = 2%nat
       <-> NoDup (map (fun p => integerValue (Port.container p))
                    [port 80 8080; port 80 9090]))).
Proof.
  apply (repeated_ports_collapse (fun _ => "") twiceSpec [port 80 8080; port 80 9090]).
  reflexivity.
Defined.

Example twice_one_port : size (exposedPorts (fun _ => "") twiceSpec) = 1%nat.
Proof. vm_compute. reflexivity. Qed.

End RoutesFacts.

(** ** The container dialog *)

Module DialogFacts.
Import DockerRoutes RoutesProofs CreateContainerDialog.

(** [hasKey] is membership among the keys. *)
Lemma hasKey_In (k : string) (o : object) : hasKey k o = true <-> In k (map fst o).
Proof.
  unfold hasKey. rewrite existsb_exists, in_map_iff. split.
  - intros (kv & Hin & Heq). apply String.eqb_eq in Heq. eauto.
  - intros (kv & Heq & Hin). exists kv. split; [exact Hin |]. apply String.eqb_eq, Heq.
Qed.

(** An update keeps the keys and their order. *)
Lemma update_keys (k v : string) (o : object) : map fst (update k v o) = map fst o.
Proof.
  induction o as [| [k' v'] o IH]; [reflexivity |].
  cbn. destruct (String.eqb_spec k' k) as [-> |]; cbn; [reflexivity |].
  f_equal. exact IH.
Qed.

(** The members after an update. *)
Lemma update_In (k v : string) (o : object) :
  List.NoDup (map fst o) -> In k (map fst o) ->
  forall k' v', In (k', v') (update k v o)
                <-> (k' = k /\ v' = v) \/ (k' <> k /\ In (k', v') o).
Proof.
  induction o as [| [k1 v1] o IH]; intros Hnd Hin k' v'; [destruct Hin |].
  cbn in Hnd. apply List.NoDup_cons_iff in Hnd as [Hk1 Hnd].
  cbn [update]. destruct (String.eqb_spec k1 k) as [-> | Hne].
  - cbn [In]. split.
    + intros [H | H]; [injection H as <- <-; left; split; reflexivity |].
      right. split; [| right; exact H].
      intros ->. apply Hk1. apply (in_map fst) in H. exact H.
    + intros [[-> ->] | [Hne [H | H]]]; [left; reflexivity | | right; exact H].
      injection H as <- <-. contradiction.
  - destruct Hin as [Hin | Hin]; [cbn in Hin; contradiction |].
    cbn [In]. rewrite (IH Hnd Hin). split.
    + intros [H | [H | [H1 H2]]].
      * injection H as <- <-. right. split; [exact Hne | left; reflexivity].
      * left. exact H.
      * right. split; [exact H1 | right; exact H2].
    + intros [H | [H1 [H2 | H2]]].
      * right. left. exact H.
      * left. exact H2.
      * right. right. split; assumption.
Qed.

(** The members after the insertion of an index key. *)
Lemma insertIndex_In (n : Z) (k v : string) (o : object) :
  forall x, In x (insertIndex n k v o) <-> x = (k, v) \/ In x o.
Proof.
  induction o as [| [k1 v1] o IH]; intros x.
  - cbn. intuition congruence.
  - cbn [insertIndex]. destruct (arrayIndex k1) as [n1 |].
    + destruct (n1 <? n)%Z.
      * cbn [In]. rewrite IH. cbn [In]. intuition congruence.
      * cbn [In]. intuition congruence.
    + cbn [In]. intuition congruence.
Qed.

(** The insertion of a new index key keeps the keys distinct. *)
Lemma insertIndex_keys (n : Z) (k v : string) (o : object) :
  ~ In k (map fst o) -> List.NoDup (map fst o) -> List.NoDup (map fst (insertIndex n k v o)).
Proof.
  induction o as [| [k1 v1] o IH]; intros Hk Hnd.
  - cbn. constructor; [intros [] | constructor].
  - assert (Hall : List.NoDup (k :: map fst ((k1, v1) :: o))) by (constructor; assumption).
    cbn [insertIndex]. destruct (arrayIndex k1) as [n1 |]; [| exact Hall].
    destruct (n1 <? n)%Z; [| exact Hall].
    cbn [map fst] in *. apply List.NoDup_cons_iff in Hnd as [Hk1 Hnd].
    constructor.
    + rewrite in_map_iff. intros ([k2 v2] & Heq & Hin). cbn in Heq. subst k2.
      apply insertIndex_In in Hin as [Hin | Hin].
      * injection Hin as ->. apply Hk. left. reflexivity.
      * apply Hk1. apply (in_map fst) in Hin. exact Hin.
    + apply IH; [| exact Hnd]. intros H. apply Hk. right. exact H.
Qed.

(** Defining a member keeps the keys distinct. *)
Lemma setProperty_keys (o : object) (k v : string) :
  List.NoDup (map fst o) -> List.NoDup (map fst (setProperty o k v)).
Proof.
  intros Hnd. unfold setProperty. destruct (hasKey k o) eqn:Hk.
  - rewrite update_keys. exact Hnd.
  - assert (Hnot : ~ In k (map fst o)).
    { intros H. apply hasKey_In in H. congruence. }
    destruct (arrayIndex k) as [n |]; [apply insertIndex_keys; assumption |].
    rewrite List.map_app. cbn. apply List.NoDup_app; [exact Hnd | |].
    + constructor; [intros [] | constructor].
    + intros x Hx [<- | []]. contradiction.
Qed.

(** The members after defining one. *)
Lemma setProperty_In (o : object) (k v : string) :
  List.NoDup (map fst o) ->
  forall k' v', In (k', v') (setProperty o k v)
                <-> (k' = k /\ v' = v) \/ (k' <> k /\ In (k', v') o).
Proof.
  intros Hnd k' v'. unfold setProperty. destruct (hasKey k o) eqn:Hk.
  - apply update_In; [exact Hnd | apply hasKey_In, Hk].
  - assert (Hnot : ~ In k (map fst o)).
    { intros H. apply hasKey_In in H. congruence. }
    assert (Hold : In (k', v') o -> k' <> k).
    { intros H ->. apply Hnot. apply (in_map fst) in H. exact H. }
    destruct (arrayIndex k) as [n |].
    + rewrite insertIndex_In. split.
      * intros [H | H]; [injection H as -> ->; left; split; reflexivity |].
        right. split; [apply Hold, H | exact H].
      * intros [[-> ->] | [_ H]]; [left; reflexivity | right; exact H].
    + rewrite in_app_iff. cbn [In]. split.
      * intros [H | [H | []]]; [right; split; [apply Hold, H | exact H] |].
        injection H as -> ->. left. split; reflexivity.
      * intros [[-> ->] | [_ H]]; [right; left; reflexivity | left; exact H].
Qed.

(** The loop of [Object.fromEntries], from any object. *)
Lemma fromEntries_fold (k : string) (l : list (string * string)) :
  forall (o : object) (acc : option string),
    List.NoDup (map fst o) ->
    (forall v, In (k, v) o <-> acc = Some v) ->
    List.NoDup (map fst (fold_left (fun o kv => setProperty o (fst kv) (snd kv)) l o))
    /\ forall v,
         In (k, v) (fold_left (fun o kv => setProperty o (fst kv) (snd kv)) l o)
         <-> fold_left (fun acc kv => if String.eqb (fst kv) k then Some (snd kv) else acc)
               l acc = Some v.
Proof.
  induction l as [| [k1 v1] l IH]; intros o acc Hnd Hacc.
  - cbn. split; [exact Hnd | exact Hacc].
  - cbn [fold_left fst snd]. apply IH; [apply setProperty_keys, Hnd |].
    intros v. rewrite (setProperty_In _ _ _ Hnd).
    destruct (String.eqb_spec k1 k) as [-> | Hne].
    + split.
      * intros [[_ ->] | [H _]]; [reflexivity | contradiction].
      * intros H. injection H as ->. left. split; reflexivity.
    + rewrite <- Hacc. split.
      * intros [[H _] | [_ H]]; [congruence | exact H].
      * intros H. right. split; [congruence | exact H].
Qed.

(** X20.  In the [env] object the dialog sends no name occurs twice, and a
    name has a value there exactly when that is the value of the last row
    of the form with this name: of two rows with one name the later wins. *)
Theorem env_last_row_wins (form : FormState) :
  List.NoDup (map fst (data_env (handleSubmit form)))
  /\ forall k v, In (k, v) (data_env (handleSubmit form))
                 <-> lastValue k (entries (envVars form)) = Some v.
Proof.
  cbn [handleSubmit data_env]. unfold fromEntries, lastValue. split.
  - apply (fromEntries_fold "" (entries (envVars form)) [] None); [constructor |].
    intros v. cbn. split; [intros [] | discriminate].
  - intros k. apply (fromEntries_fold k (entries (envVars form)) [] None); [constructor |].
    intros v. cbn. split; [intros [] | discriminate].
Qed.

(** The enumeration refuses exactly the other strings. *)
Lemma parseRestart_None (s : string) : parseRestart s = None <-> ~ In s restartNames.
Proof.
  unfold parseRestart, restartNames. cbn [In].
  destruct (String.eqb_spec s "no") as [-> | H1]; [split; [discriminate | tauto] |].
  destruct (String.eqb_spec s "always") as [-> | H2]; [split; [discriminate | tauto] |].
  destruct (String.eqb_spec s "on-failure") as [-> | H3]; [split; [discriminate | tauto] |].
  destruct (String.eqb_spec s "unless-stopped") as [-> | H4]; [split; [discriminate | tauto] |].
  split; [| reflexivity]. intros _ [H | [H | [H | [H | []]]]]; congruence.
Qed.

(** The numbers written as [null] are the ones that are not finite. *)
Lemma jsonNumber_None (x : JSNumber.number) :
  jsonNumber x = None <-> JSNumber.isFinite x = false.
Proof. destruct x; cbn; split; intros H; congruence. Qed.

(** A number prints the same before and after the transfer. *)
Lemma toString_jsonNumber (otherNotation : JSNumber.number -> string)
    (x y : JSNumber.number) :
  jsonNumber x = Some y -> toString otherNotation y = toString otherNotation x.
Proof. destruct x; cbn; intros H; try discriminate H; injection H as <-; reflexivity. Qed.

(** The port list is refused exactly when a number is not finite. *)
Lemma parsePorts_None (l : list Port.t) :
  parsePorts (map (fun p => {| SubmittedPort.container := Port.container p;
                               SubmittedPort.host := Port.host p;
                               SubmittedPort.protocol := Port.protocol p |}) l) = None
  <-> exists p, In p l /\ (JSNumber.isFinite (Port.container p) = false
                           \/ JSNumber.isFinite (Port.host p) = false).
Proof.
  induction l as [| p l IH].
  - cbn. split; [discriminate | intros (p & [] & _)].
  - cbn [map parsePorts]. unfold parsePort at 1.
    cbn [SubmittedPort.container SubmittedPort.host].
    destruct (jsonNumber (Port.container p)) as [c |] eqn:Hc;
      [destruct (jsonNumber (Port.host p)) as [h |] eqn:Hh |].
    + match goal with |- context [parsePorts ?m] => destruct (parsePorts m) eqn:E end.
      * split; [discriminate |]. intros (q & [<- | Hin] & Hq).
        -- destruct Hq as [Hq | Hq]; apply jsonNumber_None in Hq; congruence.
        -- discriminate (proj2 IH (ex_intro _ q (conj Hin Hq))).
      * split; [| reflexivity]. intros _.
        destruct (proj1 IH eq_refl) as (q & Hin & Hq). exists q. split; [right |]; assumption.
    + split; [| reflexivity]. intros _. exists p. split; [left; reflexivity |].
      right. apply jsonNumber_None, Hh.
    + split; [| reflexivity]. intros _. exists p. split; [left; reflexivity |].
      left. apply jsonNumber_None, Hc.
Qed.

(** X21.  The body the dialog posts is refused by the schema of
    [POST /containers] if and only if a port field of the form holds a
    number that is not finite (NaN or an infinity, both sent as [null]),
    or the restart policy is not one of the four names. *)
Theorem dialog_body_refused_iff (form : FormState) :
  containerSchema (handleSubmit form) = None
  <-> (exists p, In p (ports form)
                 /\ (JSNumber.isFinite (Port.container p) = false
                     \/ JSNumber.isFinite (Port.host p) = false))
      \/ ~ In (restart form) restartNames.
Proof.
  rewrite <- parsePorts_None, <- parseRestart_None.
  unfold containerSchema. cbn [handleSubmit data_ports data_restart].
  match goal with |- context [parsePorts ?m] => destruct (parsePorts m) end;
    destruct (parseRestart (restart form)); split; try discriminate; try tauto.
  intros [H | H]; discriminate.
Qed.

(** Each port of the form is among the parsed ones. *)
Lemma parsePorts_In (l : list Port.t) :
  forall ps,
    parsePorts (map (fun p => {| SubmittedPort.container := Port.container p;
                                 SubmittedPort.host := Port.host p;
                                 SubmittedPort.protocol := Port.protocol p |}) l) = Some ps ->
    forall p, In p l ->
      exists q, In q ps
                /\ jsonNumber (Port.container p) = Some (DockerRoutes.Port.container q)
                /\ jsonNumber (Port.host p) = Some (DockerRoutes.Port.host q).
Proof.
  induction l as [| p0 l IH]; intros ps Hps p Hin; [destruct Hin |].
  cbn [map parsePorts] in Hps. unfold parsePort at 1 in Hps.
  cbn [SubmittedPort.container SubmittedPort.host] in Hps.
  destruct (jsonNumber (Port.container p0)) as [c |] eqn:Hc; [| discriminate].
  destruct (jsonNumber (Port.host p0)) as [h |] eqn:Hh; [| discriminate].
  match type of Hps with context [parsePorts ?m] => destruct (parsePorts m) as [qs |] eqn:E end;
    [| discriminate].
  injection Hps as <-. destruct Hin as [<- | Hin].
  - eexists. split; [left; reflexivity |]. cbn. split; assumption.
  - destruct (IH qs eq_refl p Hin) as (q & Hq & H1 & H2).
    exists q. split; [right; exact Hq | split; assumption].
Qed.

(** Two equal texts with suffixes of one length have the same suffix. *)
Lemma append_same_length (a b s t : string) :
  String.length s = String.length t -> a ++ s = b ++ t -> s = t.
Proof.
  revert b. induction a as [| c a IH]; intros [| d b] Hlen H.
  - exact H.
  - apply (f_equal String.length) in H. rewrite !string_length_append in H. cbn in H. lia.
  - apply (f_equal String.length) in H. rewrite !string_length_append in H. cbn in H. lia.
  - cbn in H. injection H as _ H. apply (IH b Hlen H).
Qed.

(** X22.  The protocol chosen for a port in the dialog has no effect: when
    the body is accepted, each port of the form, marked TCP or UDP, is
    exposed under the key [<container>/tcp], with the container port as
    JavaScript prints it, and no key [<container>/udp] is exposed for
    it. *)
Theorem dialog_port_protocol_unused (otherNotation : JSNumber.number -> string)
    (form : FormState) (ps : list DockerRoutes.Port.t) (r : Restart) (p : Port.t) :
  containerSchema (handleSubmit form) = Some (ps, r) ->
  In p (ports form) ->
  fst (portMaps otherNotation (Some ps))
    !! (toString otherNotation (Port.container p) ++ "/tcp") = Some tt
  /\ fst (portMaps otherNotation (Some ps))
       !! (toString otherNotation (Port.container p) ++ "/udp") = None.
Proof.
  unfold containerSchema. cbn [handleSubmit data_ports data_restart].
  match goal with |- context [parsePorts ?m] => destruct (parsePorts m) as [qs |] eqn:E end;
    [| discriminate].
  destruct (parseRestart (restart form)); [| discriminate].
  intros H Hin. injection H as -> _.
  destruct (parsePorts_In _ _ E p Hin) as (q & Hq & Hc & _).
  rewrite <- (toString_jsonNumber otherNotation _ _ Hc). cbn [portMaps]. split.
  - apply (exposed_every_port otherNotation ps (∅, ∅) q Hq).
  - assert (Hne : forall q', In q' ps ->
                   portStr otherNotation q'
                   <> toString otherNotation (DockerRoutes.Port.container q) ++ "/udp").
    { intros q' _ Heq. unfold portStr in Heq.
      apply append_same_length in Heq; [discriminate | reflexivity]. }
    rewrite (proj1 (addPort_later otherNotation ps (∅, ∅) _ Hne)). reflexivity.
Qed.

(** A DNS server asked for on 53/udp. *)
Lemma dialog_port_protocol_unused_witness :
  fst (portMaps (fun _ => "") (Some [port 53 53])) !! "53/tcp" = Some tt
  /\ fst (portMaps (fun _ => "") (Some [port 53 53])) !! "53/udp" = None.
Proof.
  apply (dialog_port_protocol_unused (fun _ => "") dnsForm [port 53 53] RestartAlways
           {| Port.container := JSNumber.ofZ 53; Port.host := JSNumber.ofZ 53;
              Port.protocol := Udp |}).
  - reflexivity.
  - left. reflexivity.
Defined.

(** A port field of very many digits is an infinity and the body is
    refused. *)
Example infinite_port_refused :
  containerSchema
    (handleSubmit
       {| image := image dnsForm; name := name dnsForm;
          ports := [{| Port.container := S754_infinity false; Port.host := JSNumber.ofZ 53;
                       Port.protocol := Tcp |}];
          volumes := []; envVars := []; restart := "no"; privileged := false;
          networkMode := "bridge"; hostname := ""; devices := []; command := [];
          memory := None; cpuShares := None; labels := [] |}) = None.
Proof. reflexivity. Qed.

(** The [env] object of that form. *)
Example dnsForm_env : data_env (handleSubmit dnsForm) = [("TZ", "Europe/Oslo")].
Proof. reflexivity. Qed.

(** Index keys come first, in ascending order; a repeated name keeps its place. *)
Example index_keys_first :
  fromEntries [("B", "x"); ("10", "y"); ("A", "z"); ("2", "w"); ("B", "v")]
  = [("2", "w"); ("10", "y"); ("B", "v"); ("A", "z")].
Proof. vm_compute. reflexivity. Qed.

End DialogFacts.

(** ** More on the ISO builder *)

Module IsoFacts.
Import IsoBuilder IsoReference IsoFiles IsoProofs.

Section Commands.
Variable World Error : Type.
Variable commands : Step -> World -> World * option Error.
Variable listing : World -> World * option Error.

(** What a step function does to the world. *)
Lemma stepFunction_commands (s : Step) (p : Process World) :
  match stepFunction World Error commands listing s p with
  | (inr _, p') => stepCommands World Error commands listing s (world World p)
                   = (world World p', None)
  | (inl e, p') => stepCommands World Error commands listing s (world World p)
                   = (world World p', Some e)
  end.
Proof.
  destruct s; cbn [stepFunction];
    unfold setupBuildEnvironment, downloadBaseSystem, configureSystem, installPackages,
      installNestOSComponents, createISO, step, guarded, bind, tryCatch, run, exec, emit,
      throw, stepCommands; cbn;
    match goal with
    | |- context [commands ?s (world World p)] =>
        destruct (commands s (world World p)) as [w [e |]]; cbn; try reflexivity
    end.
  destruct (listing w) as [w' [e |]]; reflexivity.
Qed.

(** What a list of step functions does to the world. *)
Lemma runAll_commands (l : list Step) :
  forall p : Process World,
    match runAll World Error commands listing l p with
    | (inr _, p') => runCommands World Error commands listing l (world World p)
                     = (world World p', None)
    | (inl e, p') => runCommands World Error commands listing l (world World p)
                     = (world World p', Some e)
    end.
Proof.
  induction l as [| s l IH]; intros p; [reflexivity |].
  cbn [runAll runCommands]. unfold bind.
  pose proof (stepFunction_commands s p) as Hs.
  destruct (stepFunction World Error commands listing s p) as [[e | []] p1].
  - rewrite Hs. reflexivity.
  - rewrite Hs. apply IH.
Qed.

(** A list of steps none of which is the first one: a failure there comes
    before the report of success. *)
Lemma runAll_later (l : list Step) :
  ~ In SetupBuildEnvironment l ->
  forall p : Process World,
    (exists done f rest e w,
        l = (done ++ f :: rest)%list
        /\ runAll World Error commands listing l p
           = (inl e, {| world := w;
                        events := (events World p ++ flat_map success done ++ failure f)%list |}))
    \/ (exists w,
          runAll World Error commands listing l p
          = (inr tt, {| world := w; events := (events World p ++ flat_map success l)%list |})).
Proof.
  induction l as [| s l IH]; intros Hno p.
  - right. exists (world World p). cbn. rewrite app_nil_r. destruct p; reflexivity.
  - assert (Hstep : stepFunction World Error commands listing s = step World Error commands s).
    { destruct s; try reflexivity. exfalso. apply Hno. left. reflexivity. }
    cbn [runAll]. unfold bind. rewrite Hstep.
    destruct (step_cases World Error commands s p) as [[w ->] | (w & e & ->)].
    + destruct (IH (fun H => Hno (or_intror H))
                   {| world := w; events := (events World p ++ success s)%list |})
        as [(done & f & rest & e & w' & Hl & Hr) | (w' & Hr)].
      * left. exists (s :: done), f, rest, e, w'.
        split; [rewrite Hl; reflexivity |].
        rewrite Hr. cbn [events flat_map]. rewrite <- !app_assoc. reflexivity.
      * right. exists w'. rewrite Hr. cbn [events flat_map]. rewrite <- !app_assoc. reflexivity.
    + left. exists [], s, l, e, w. auto.
Qed.

(** The three ways the first step can end. *)
Lemma setupBuildEnvironment_result (p : Process World) :
  setupBuildEnvironment World Error commands listing p
  = match commands SetupBuildEnvironment (world World p) with
    | (w1, Some e) =>
        (inl e, {| world := w1;
                   events := (events World p ++ failure SetupBuildEnvironment)%list |})
    | (w1, None) =>
        match listing w1 with
        | (w2, Some e) =>
            (inl e, {| world := w2;
                       events := (events World p ++ lateFailure SetupBuildEnvironment)%list |})
        | (w2, None) =>
            (inr tt, {| world := w2;
                        events := (events World p ++ success SetupBuildEnvironment)%list |})
        end
    end.
Proof.
  unfold setupBuildEnvironment, guarded, bind, tryCatch, run, exec, emit, throw, success,
    failure, lateFailure. cbn.
  destruct (commands SetupBuildEnvironment (world World p)) as [w1 [e |]]; cbn.
  - rewrite <- app_assoc. reflexivity.
  - destruct (listing w1) as [w2 [e |]]; cbn; rewrite <- !app_assoc; reflexivity.
Qed.

End Commands.

(** The successes reported by completed steps. *)
Lemma succeeded_in_success (s : Step) (l : list Step) :
  In (Succeeded s) (flat_map success l) <-> In s l.
Proof.
  induction l as [| x l IH]; [reflexivity |].
  cbn. rewrite IH. split.
  - intros [H | [H | H]]; [discriminate | injection H as ->; left; reflexivity | right; exact H].
  - intros [-> | H]; [right; left; reflexivity | right; right; exact H].
Qed.

(** Completed steps report no failure. *)
Lemma failed_not_in_success (s : Step) (l : list Step) :
  ~ In (Failed s) (flat_map success l).
Proof.
  induction l as [| x l IH]; [intros [] |].
  cbn. intros [H | [H | H]]; [discriminate | discriminate | exact (IH H)].
Qed.

(** No step occurs twice in the pipeline. *)
Lemma pipeline_NoDup : List.NoDup pipeline.
Proof.
  unfold pipeline. repeat constructor; cbn; intuition discriminate.
Qed.

(** X23.  The world a build leaves and the way it ends are those of the
    commands of the six steps run one after the other up to the first
    error: the reporting changes nothing, and after a failure the machine
    stays as the failing command left it. *)
Theorem buildIso_runs_the_commands (World Error : Type)
    (commands : Step -> World -> World * option Error)
    (listing : World -> World * option Error) (p : Process World) :
  let r := buildIso World Error commands listing p in
  let c := runCommands World Error commands listing pipeline (world World p) in
  world World (snd r) = fst c
  /\ fst r = match snd c with
             | None => Returned
             | Some _ => Exited 1
             end.
Proof.
  cbv zeta. rewrite buildIso_runAll.
  pose proof (runAll_commands World Error commands listing pipeline p) as H.
  destruct (runAll World Error commands listing pipeline p) as [[e | []] p'];
    rewrite H; split; reflexivity.
Qed.

(** X24.  A build reports one step both as succeeded and as failed exactly
    when the commands of the first step succeed and the listing of the
    build directory that follows fails. *)
Theorem success_then_failure_only_by_listing (World Error : Type)
    (commands : Step -> World -> World * option Error)
    (listing : World -> World * option Error) (w : World) :
  let evs :=
    events World (snd (buildIso World Error commands listing {| world := w; events := [] |})) in
  (exists s, In (Succeeded s) evs /\ In (Failed s) evs)
  <-> exists w', commands SetupBuildEnvironment w = (w', None) /\ snd (listing w') <> None.
Proof.
  intros evs. subst evs. rewrite buildIso_runAll.
  pose proof pipeline_NoDup as Hnd. unfold pipeline in Hnd |- *.
  set (later := [DownloadBaseSystem; ConfigureSystem; InstallPackages;
                 InstallNestOSComponents; CreateISO]) in *.
  assert (Hno : ~ In SetupBuildEnvironment later).
  { cbn. intuition discriminate. }
  cbn [runAll stepFunction]. unfold bind. rewrite setupBuildEnvironment_result.
  cbn [world events app].
  destruct (commands SetupBuildEnvironment w) as [w1 [e |]] eqn:Hc.
  - cbn. split.
    + intros (s & [H | [H | []]] & _); discriminate.
    + intros (w' & H & _). discriminate.
  - destruct (listing w1) as [w2 [e |]] eqn:Hl.
    + cbn. split.
      * intros _. exists w1. split; [reflexivity |]. rewrite Hl. discriminate.
      * intros _. exists SetupBuildEnvironment. auto.
    + split.
      * intros (s & Hs & Hf). exfalso.
        destruct (runAll_later World Error commands listing later Hno
                    {| world := w2; events := success SetupBuildEnvironment |})
          as [(done & f & rest & e & w' & Hl' & Hr) | (w' & Hr)];
          rewrite Hr in Hs, Hf; cbn [fst snd events] in Hs, Hf.
        -- change (success SetupBuildEnvironment)
             with (flat_map success [SetupBuildEnvironment]) in Hs, Hf.
           rewrite app_assoc, <- flat_map_app in Hs, Hf.
           apply in_app_or in Hf as [Hf | Hf]; [exact (failed_not_in_success _ _ Hf) |].
           destruct Hf as [Hf | [Hf | []]]; [discriminate |]. injection Hf as ->.
           apply in_app_or in Hs as [Hs | Hs].
           ++ apply succeeded_in_success in Hs. rewrite Hl' in Hnd.
              change (SetupBuildEnvironment :: (done ++ s :: rest)%list)
                with (([SetupBuildEnvironment] ++ done) ++ s :: rest)%list in Hnd.
              apply NoDup_remove_2 in Hnd. apply Hnd. apply in_or_app. left. exact Hs.
           ++ destruct Hs as [Hs | [Hs | []]]; discriminate.
        -- change (success SetupBuildEnvironment)
             with (flat_map success [SetupBuildEnvironment]) in Hf.
           rewrite <- flat_map_app in Hf. exact (failed_not_in_success _ _ Hf).
      * intros (w' & H & Hn). injection H as <-. rewrite Hl in Hn. contradiction.
Qed.

(** What [find] returns is the first element that satisfies the test. *)
Lemma find_first {A : Type} (f : A -> bool) (l : list A) (x : A) :
  find f l = Some x ->
  f x = true
  /\ exists before after, l = (before ++ x :: after)%list
                          /\ forall y, In y before -> f y = false.
Proof.
  induction l as [| a l IH]; [discriminate |].
  cbn. destruct (f a) eqn:Ha.
  - intros H. injection H as <-. split; [exact Ha |].
    exists [], l. split; [reflexivity | intros y []].
  - intros H. destruct (IH H) as (Hx & before & after & -> & Hb). split; [exact Hx |].
    exists (a :: before), after. split; [reflexivity |].
    intros y [<- | Hy]; [exact Ha | apply Hb, Hy].
Qed.

(** [find] returns nothing exactly when no element satisfies the test. *)
Lemma find_absent {A : Type} (f : A -> bool) (l : list A) :
  find f l = None <-> forall y, In y l -> f y = false.
Proof.
  split.
  - intros H y Hy. destruct (f y) eqn:E; [| reflexivity].
    exfalso. revert H. induction l as [| a l IH]; [destruct Hy |].
    cbn. destruct Hy as [<- | Hy]; [rewrite E; discriminate |].
    destruct (f a); [discriminate | exact (IH Hy)].
  - induction l as [| a l IH]; intros H; [reflexivity |].
    cbn. rewrite (H a (or_introl eq_refl)). apply IH. intros y Hy. apply H. right. exact Hy.
Qed.

(** A prefix starts with the same character. *)
Lemma prefix_head (a c : ascii) (s t : string) :
  String.prefix (String a s) (String c t) = true -> a = c.
Proof.
  cbn. destruct (ascii_dec a c); [intros _; assumption | discriminate].
Qed.

(** X25.  [createISO] throws ['Kernel or initrd files not found'] exactly
    when the boot directory holds no name starting with [vmlinuz-] or no
    name starting with [initrd.img-]; otherwise it copies, for each of the
    two prefixes, the first name of the listing that starts with it, and
    these are two different files. *)
Theorem boot_files_first_of_each_prefix (bootFiles : list string) :
  (selectBootFiles bootFiles = None
   <-> (forall f, In f bootFiles -> String.prefix kernelPrefix f = false)
       \/ (forall f, In f bootFiles -> String.prefix initrdPrefix f = false))
  /\ forall k i,
       selectBootFiles bootFiles = Some (k, i) ->
       k <> i
       /\ (exists before after,
              bootFiles = (before ++ k :: after)%list
              /\ String.prefix kernelPrefix k = true
              /\ forall f, In f before -> String.prefix kernelPrefix f = false)
       /\ (exists before after,
              bootFiles = (before ++ i :: after)%list
              /\ String.prefix initrdPrefix i = true
              /\ forall f, In f before -> String.prefix initrdPrefix f = false).
Proof.
  unfold selectBootFiles, kernelFile, initrdFile.
  rewrite <- !find_absent.
  destruct (find (String.prefix kernelPrefix) bootFiles) as [k |] eqn:Hk.
  - destruct (find (String.prefix initrdPrefix) bootFiles) as [i |] eqn:Hi.
    + destruct (find_first _ _ _ Hk) as (Hpk & bk & ak & Hlk & Hbk).
      destruct (find_first _ _ _ Hi) as (Hpi & bi & ai & Hli & Hbi).
      assert (Hmk : missing (Some k) = false).
      { destruct k; [cbv in Hpk; discriminate Hpk | reflexivity]. }
      assert (Hmi : missing (Some i) = false).
      { destruct i; [cbv in Hpi; discriminate Hpi | reflexivity]. }
      rewrite Hmk, Hmi. cbn [orb]. split.
      * split; [discriminate | intros [H | H]; discriminate].
      * intros k' i' H. injection H as <- <-. split; [| split].
        -- intros ->. destruct i as [| c i]; [cbv in Hpi; discriminate Hpi |].
           apply prefix_head in Hpk. apply prefix_head in Hpi. congruence.
        -- exists bk, ak. auto.
        -- exists bi, ai. auto.
    + split; [split; auto | discriminate].
  - split; [split; auto | discriminate].
Qed.

(** A boot directory with two kernels. *)
Lemma boot_files_first_of_each_prefix_witness :
  "vmlinuz-6.1.0-18-amd64" <> "initrd.img-6.1.0-18-amd64"
  /\ (exists before after,
         ["config-6.1.0-18-amd64"; "initrd.img-6.1.0-18-amd64"; "vmlinuz-6.1.0-18-amd64";
          "vmlinuz-6.1.0-20-amd64"]
         = (before ++ "vmlinuz-6.1.0-18-amd64" :: after)%list
         /\ String.prefix kernelPrefix "vmlinuz-6.1.0-18-amd64" = true
         /\ forall f, In f before -> String.prefix kernelPrefix f = false)
  /\ (exists before after,
         ["config-6.1.0-18-amd64"; "initrd.img-6.1.0-18-amd64"; "vmlinuz-6.1.0-18-amd64";
          "vmlinuz-6.1.0-20-amd64"]
         = (before ++ "initrd.img-6.1.0-18-amd64" :: after)%list
         /\ String.prefix initrdPrefix "initrd.img-6.1.0-18-amd64" = true
         /\ forall f, In f before -> String.prefix initrdPrefix f = false).
Proof.
  apply (proj2 (boot_files_first_of_each_prefix
                  ["config-6.1.0-18-amd64"; "initrd.img-6.1.0-18-amd64";
                   "vmlinuz-6.1.0-18-amd64"; "vmlinuz-6.1.0-20-amd64"])).
  reflexivity.
Defined.

End IsoFacts.
